(** * The Novelty Functional engine ([Novelty Alert.py])

    A shallow embedding of [NoveltyConfig], [NoveltyEngine.compute] and the
    processing loop of [run_simulation_2d], with the properties the
    specification states about them.

    Number model.  Python floats and torch tensors of floats are idealised
    as real numbers ([R]): rounding, overflow, NaN and infinities are not
    modelled.  What Python raises on real numbers is kept: a float division
    whose divisor is zero raises [ZeroDivisionError].  Line 62 alone, which
    is plain Python arithmetic on doubles, is also given on IEEE binary64
    ([novelty_functional_f64]), to show where the idealisation departs
    from the code.

    Effects.  The model object is shared and mutated ([model.eval()],
    [model.zero_grad], [loss.backward()]), and every statement can raise.
    Both are explicit: a computation is a function from the state to an
    outcome (a value or a raised exception) and the state at that point, so
    a mutation made before a raise persists, as in Python.

    External collaborators.  The tokenizer, the forward pass and the
    backward pass belong to [transformers] and [torch]; they are taken as a
    record of functions ([backend]).  [F.log_softmax] and [F.kl_div] are
    written out from their documented definitions.

    The second program of the file, [Power Metrics Test.py], is embedded
    after the engine: the integer workload [cpu_workload], the figures one
    round of [run_instance] records, and the heat buffer of
    [update_live_metrics].  Its serial port, clock, load probe, random
    choice and widgets are inputs of the model. *)

From Stdlib Require Import Reals Lra Lia List String Ascii Bool Arith ZArith.
From Stdlib Require Strings.Byte.
From Stdlib Require Floats.
Import ListNotations.

Local Open Scope R_scope.

(** ** Exceptions and outcomes *)

(** A raised Python exception, identified by its class name. *)
Inductive exn : Type :=
| PyExc (cls : string).

Definition StopIteration : exn := PyExc "StopIteration".
Definition IndexError : exn := PyExc "IndexError".
Definition ZeroDivisionError : exn := PyExc "ZeroDivisionError".

Inductive outcome (A : Type) : Type :=
| Ok (a : A)
| Raise (e : exn).

Arguments Ok {A} a.
Arguments Raise {A} e.

(** A statement block over a mutable state [St]. *)
Definition M (St A : Type) : Type := St -> outcome A * St.

Definition ret {St A} (a : A) : M St A := fun s => (Ok a, s).

Definition bind {St A B} (c : M St A) (k : A -> M St B) : M St B :=
  fun s =>
    match c s with
    | (Ok a, s') => k a s'
    | (Raise e, s') => (Raise e, s')
    end.

Definition lift {St A} (o : outcome A) : M St A := fun s => (o, s).

Definition get {St} : M St St := fun s => (Ok s, s).

Definition modify {St} (f : St -> St) : M St unit := fun s => (Ok tt, f s).

Declare Scope py_scope.
Delimit Scope py_scope with py.
Notation "x <- c1 ;; c2" := (bind c1 (fun x => c2))
  (at level 61, c1 at next level, right associativity) : py_scope.
Notation "c1 ;; c2" := (bind c1 (fun _ => c2))
  (at level 61, right associativity) : py_scope.

(** ** Strings: the [in] operator *)

Fixpoint prefixb (t n : string) : bool :=
  match t, n with
  | EmptyString, _ => true
  | String a t', String b n' => Ascii.eqb a b && prefixb t' n'
  | String _ _, EmptyString => false
  end.

(** [t in n] on Python strings: [t] occurs in [n] as a literal substring. *)
Fixpoint str_in (t n : string) : bool :=
  prefixb t n ||
  match n with
  | EmptyString => false
  | String _ n' => str_in t n'
  end.

(** The builtin [any] over a generator of booleans. *)
Definition any {A} (f : A -> bool) (l : list A) : bool := existsb f l.

(** ** Tensors and the torch functions the engine calls *)

(** A tensor of reals, flattened. *)
Definition tensor : Type := list R.

(** [t.sum()] *)
Definition tsum (t : tensor) : R := fold_right Rplus 0 t.

(** [t.pow(2)] *)
Definition pow2 (t : tensor) : tensor := map (fun x => x * x) t.

(** [F.log_softmax(x, dim=-1)] on one row: [x_i - log (sum_j exp x_j)]. *)
Definition log_softmax_row (x : list R) : list R :=
  let lse := ln (tsum (map exp x)) in
  map (fun xi => xi - lse) x.

(** A [B, V] tensor is a list of [B] rows. *)
Definition log_softmax (x : list (list R)) : list (list R) :=
  map log_softmax_row x.

(** [s.expand_as(t)] for a 0-dimensional [s]. *)
Definition expand_as (s : R) (t : list (list R)) : list (list R) :=
  map (map (fun _ => s)) t.

(** The pointwise term of [F.kl_div(input, target, log_target=True)]:
    [exp(target) * (target - input)]. *)
Definition kl_pointwise (input target : R) : R :=
  exp target * (target - input).

Fixpoint kl_row (input target : list R) : R :=
  match input, target with
  | i :: input', t :: target' => kl_pointwise i t + kl_row input' target'
  | _, _ => 0
  end.

Fixpoint kl_rows (input target : list (list R)) : R :=
  match input, target with
  | i :: input', t :: target' => kl_row i t + kl_rows input' target'
  | _, _ => 0
  end.

(** [F.kl_div(input, target, log_target=True, reduction="batchmean")]:
    the sum of the pointwise terms divided by [input.size(0)]. *)
Definition kl_div (input target : list (list R)) : R :=
  kl_rows input target / INR (List.length input).

(** ** Configuration *)

Record NoveltyConfig : Type := {
  attention_normalizer : R;
  eps : R;
  target_layers : list string;
  novelty_threshold : R
}.

(** [NoveltyConfig()] with the dataclass defaults. *)
Definition default_config : NoveltyConfig := {|
  attention_normalizer := 512;
  eps := 1 / 1000000;
  target_layers := ["lm_head"%string];
  novelty_threshold := 5 / 10
|}.

(** ** The model object *)

Record parameter : Type := {
  p_name : string;
  p_data : tensor;
  p_grad : option tensor
}.

(** The state of the shared [model] object: its train/eval flag and its
    named parameters, each with a value and a gradient accumulator. *)
Record model_state : Type := {
  training : bool;
  named_parameters : list parameter
}.

(** What the forward and backward passes can read of the parameters. *)
Definition weights (s : model_state) : list (string * tensor) :=
  map (fun p => (p_name p, p_data p)) (named_parameters s).

(** The capabilities of [transformers] and [torch] the engine consumes.
    [graph] is the autograd graph hanging off [outputs.loss]. *)
Record backend (graph : Type) : Type := {
  (* tokenizer(text, return_tensors="pt", truncation=True).input_ids[0] *)
  tokenizer : string -> outcome (list nat);
  (* model(inputs).logits[0]: one row of V logits per position *)
  forward : bool -> list (string * tensor) -> list nat ->
            outcome (list (list R));
  (* model(inputs, labels=input_ids) *)
  forward_labels : bool -> list (string * tensor) -> list nat ->
                   outcome graph;
  (* outputs.loss.backward(): the gradient of the loss for each named
     parameter, None for a parameter outside the computation graph *)
  backward : graph -> outcome (string -> option tensor)
}.

Arguments tokenizer {graph} b.
Arguments forward {graph} b.
Arguments forward_labels {graph} b.
Arguments backward {graph} b.

(** [model.eval()] *)
Definition model_eval (s : model_state) : model_state :=
  {| training := false; named_parameters := named_parameters s |}.

Definition clear_grad (p : parameter) : parameter :=
  {| p_name := p_name p; p_data := p_data p; p_grad := None |}.

(** [model.zero_grad(set_to_none=True)] *)
Definition zero_grad (s : model_state) : model_state :=
  {| training := training s;
     named_parameters := map clear_grad (named_parameters s) |}.

Fixpoint tensor_add (a b : tensor) : tensor :=
  match a, b with
  | x :: a', y :: b' => (x + y) :: tensor_add a' b'
  | _, _ => []
  end.

(** How autograd stores a gradient: into an empty accumulator it is set,
    into a populated one it is added. *)
Definition accumulate (old : option tensor) (g : option tensor)
  : option tensor :=
  match g with
  | None => old
  | Some gv =>
      match old with
      | None => Some gv
      | Some ov => Some (tensor_add ov gv)
      end
  end.

Definition accumulate_param (g : string -> option tensor) (p : parameter)
  : parameter :=
  {| p_name := p_name p; p_data := p_data p;
     p_grad := accumulate (p_grad p) (g (p_name p)) |}.

Definition store_grads (g : string -> option tensor) (s : model_state)
  : model_state :=
  {| training := training s;
     named_parameters := map (accumulate_param g) (named_parameters s) |}.

(** ** The engine: [NoveltyEngine.compute] *)

(** The dict [compute] returns, keys ["novelty"], ["kl"], ["fisher"],
    ["tokens"]. *)
Record EvaluationResult : Type := {
  novelty : R;
  kl : R;
  fisher : R;
  tokens : nat
}.

(** Python's [/] on floats. *)
Definition py_truediv (a b : R) : outcome R :=
  if Req_dec_T b 0 then Raise ZeroDivisionError else Ok (a / b).

(** Step 3, the expression
    [(float(kl) * fisher_trace) /
     ((token_count / attention_normalizer) + eps)]. *)
Definition novelty_functional (config : NoveltyConfig)
    (kl_v fisher_trace : R) (token_count : nat) : outcome R :=
  match py_truediv (INR token_count) (attention_normalizer config) with
  | Ok q => py_truediv (kl_v * fisher_trace) (q + eps config)
  | Raise e => Raise e
  end.

(** [any(t in n for t in self.config.target_layers)] *)
Definition selected (config : NoveltyConfig) (n : string) : bool :=
  any (fun t => str_in t n) (target_layers config).

(** The generator summed at lines 53-57: one item
    [p.grad.pow(2).sum().item()] for each named parameter that passes
    the filter [any(...) and p.grad is not None]. *)
Definition fisher_items (config : NoveltyConfig) (ps : list parameter)
  : list R :=
  flat_map
    (fun p =>
       if selected config (p_name p) then
         match p_grad p with
         | Some g => [tsum (pow2 g)]
         | None => []
         end
       else [])
    ps.

(** The builtin [sum]: a left fold from 0. *)
Definition py_sum (l : list R) : R := fold_left Rplus l 0.

(** [logits[:, -1, :]] on a [1, T, V] tensor: indexing position -1 of an
    axis of size 0 raises [IndexError]. *)
Definition final_position (rows : list (list R))
  : outcome (list (list R)) :=
  match rows with
  | [] => Raise IndexError
  | r :: rows' => Ok [last rows' r]
  end.

(** [next(model.parameters())] *)
Definition next_parameter (s : model_state) : outcome parameter :=
  match named_parameters s with
  | [] => Raise StopIteration
  | p :: _ => Ok p
  end.

Section Engine.

Context {graph : Type}.
Variable B : backend graph.
Variable config : NoveltyConfig.

Local Open Scope py_scope.

(** Step 1 (lines 40-45). *)
Definition distribution_analyzer (input_ids : list nat)
  : M model_state R :=
  s <- get ;;
  rows <- lift (forward B (training s) (weights s) input_ids) ;;
  logits <- lift (final_position rows) ;;
  let log_p := log_softmax logits in
  let log_uniform := - ln (INR (List.length (hd [] logits))) in
  ret (kl_div (expand_as log_uniform log_p) log_p).

(** Step 2 (lines 47-58). *)
Definition sensitivity_analyzer (input_ids : list nat)
  : M model_state R :=
  modify model_eval ;;
  s <- get ;;
  outputs <- lift (forward_labels B (training s) (weights s) input_ids) ;;
  modify zero_grad ;;
  g <- lift (backward B outputs) ;;
  modify (store_grads g) ;;
  s' <- get ;;
  let fisher_trace := py_sum (fisher_items config (named_parameters s')) in
  modify zero_grad ;;
  ret fisher_trace.

Definition compute (text : string) : M model_state EvaluationResult :=
  s <- get ;;
  _ <- lift (next_parameter s) ;;
  input_ids <- lift (tokenizer B text) ;;
  kl_v <- distribution_analyzer input_ids ;;
  fisher_trace <- sensitivity_analyzer input_ids ;;
  let token_count := List.length input_ids in
  novelty_v <- lift (novelty_functional config kl_v fisher_trace
                       token_count) ;;
  ret {| novelty := novelty_v; kl := kl_v; fisher := fisher_trace;
         tokens := token_count |}.

(** ** The processing loop of [run_simulation_2d] (lines 94-103)

    Console lines, plots and the CSV writer are presentation and are
    left out; [data_log] and [metrics] are what the loop builds. *)

(** One row of [data_log]:
    [{"text": text, "is_alert": is_outlier, **res}]. *)
Record log_entry : Type := {
  text : string;
  is_alert : bool;
  res : EvaluationResult
}.

Record metrics_log : Type := {
  m_novelty : list R;
  m_kl : list R;
  m_fisher : list R
}.

Record sim_state : Type := {
  model : model_state;
  data_log : list log_entry;
  metrics : metrics_log
}.

(** Python's [>] on floats. *)
Definition py_gt (x y : R) : bool :=
  if Rgt_dec x y then true else false.

(** Runs a block that only touches the model object. *)
Definition on_model {A} (c : M model_state A) : M sim_state A :=
  fun st =>
    let (o, m') := c (model st) in
    (o, {| model := m'; data_log := data_log st;
           metrics := metrics st |}).

Definition log_result (t : string) (is_outlier : bool)
    (r : EvaluationResult) (st : sim_state) : sim_state :=
  {| model := model st;
     data_log := data_log st ++
                 [{| text := t; is_alert := is_outlier; res := r |}];
     metrics :=
       {| m_novelty := m_novelty (metrics st) ++ [novelty r];
          m_kl := m_kl (metrics st) ++ [kl r];
          m_fisher := m_fisher (metrics st) ++ [fisher r] |} |}.

(** [is_outlier = res["novelty"] > config.novelty_threshold] *)
Definition is_outlier (r : EvaluationResult) : bool :=
  py_gt (novelty r) (novelty_threshold config).

(** The body of the [for] loop. *)
Definition process_text (t : string) : M sim_state unit :=
  r <- on_model (compute t) ;;
  modify (log_result t (is_outlier r) r).

(** [for i, text in enumerate(texts): ...] *)
Fixpoint process_texts (texts : list string) : M sim_state unit :=
  match texts with
  | [] => ret tt
  | t :: texts' => process_text t ;; process_texts texts'
  end.

End Engine.

(** [run_simulation_2d(texts)], from the loaded model to the rows handed
    to the CSV writer.  The function builds its engine from
    [NoveltyConfig()]. *)
Definition run_simulation_2d {graph : Type} (B : backend graph)
    (loaded : model_state) (texts : list string)
  : outcome (list log_entry) * sim_state :=
  let start :=
    {| model := loaded; data_log := [];
       metrics := {| m_novelty := []; m_kl := []; m_fisher := [] |} |} in
  match process_texts B default_config texts start with
  | (Ok _, st) => (Ok (data_log st), st)
  | (Raise e, st) => (Raise e, st)
  end.

(** ** Line 62 on doubles

    [float(kl)], [fisher_trace], [attention_normalizer] and [eps] are
    Python floats, that is IEEE binary64 values, and [token_count] is an
    int that [/] converts to a float.  The operations below are those of
    binary64 with rounding to nearest; an overflow gives an infinity and
    an undefined operation gives NaN, neither raises. *)

(** Python's [/] on two floats: a zero divisor, of either sign, raises. *)
Definition py_truediv_f64 (a b : PrimFloat.float)
  : outcome PrimFloat.float :=
  if PrimFloat.eqb b PrimFloat.zero then Raise ZeroDivisionError
  else Ok (PrimFloat.div a b).

(** [float(n)] of a token count (below 2^63). *)
Definition float_of_count (n : nat) : PrimFloat.float :=
  PrimFloat.of_uint63 (Uint63.of_Z (Z.of_nat n)).

(** [(float(kl) * fisher_trace) /
     ((token_count / attention_normalizer) + eps)] on doubles. *)
Definition novelty_functional_f64
    (attention_normalizer_f eps_f kl_f fisher_f : PrimFloat.float)
    (token_count : nat) : outcome PrimFloat.float :=
  match py_truediv_f64 (float_of_count token_count) attention_normalizer_f
  with
  | Ok q =>
      py_truediv_f64 (PrimFloat.mul kl_f fisher_f) (PrimFloat.add q eps_f)
  | Raise e => Raise e
  end.

(** ** Quantities the statements are about *)

(** The divergence step 1 computes from the final-position logits. *)
Definition kl_of_logits (logits : list (list R)) : R :=
  kl_div
    (expand_as (- ln (INR (List.length (hd [] logits))))
       (log_softmax logits))
    (log_softmax logits).

(** The model object after a complete step 2 with gradient [g]. *)
Definition after_backward (g : string -> option tensor) (s : model_state)
  : model_state :=
  store_grads g (zero_grad (model_eval s)).

(** *** Divergences *)

(** The Kullback-Leibler divergence KL(P‖Q) of two distributions given as
    lists of probabilities: [sum_i P_i * (ln P_i - ln Q_i)]. *)
Fixpoint KL (P Q : list R) : R :=
  match P, Q with
  | p :: P', q :: Q' => p * (ln p - ln q) + KL P' Q'
  | _, _ => 0
  end.

(** The model's next-token distribution for a row of logits. *)
Definition softmax_row (x : list R) : list R :=
  map (fun xi => exp xi / tsum (map exp x)) x.

(** The discrete uniform distribution over a vocabulary of [V] words. *)
Definition uniform (V : nat) : list R := repeat (/ INR V) V.

(** Written from the specification's words, section 4.1: the divergence
    taken as KL(reference‖model), reference the uniform distribution,
    model the final-position distribution. *)
Definition KL_reference_model (x : list R) : R :=
  KL (uniform (List.length x)) (softmax_row x).

(** The other direction, KL(model‖reference). *)
Definition KL_model_reference (x : list R) : R :=
  KL (softmax_row x) (uniform (List.length x)).

(** *** Frames, sequences of calls and the trace *)

(** A block preserves the weights when the names and values of the
    parameters are the same after it as before it, whatever its outcome. *)
Definition preserves_weights {A} (c : M model_state A) : Prop :=
  forall s, weights (snd (c s)) = weights s.

(** The model object after the calls [compute(t)] for each [t] of [texts]
    in turn, whatever each of them returned or raised. *)
Definition evaluations {graph : Type} (B : backend graph)
    (config : NoveltyConfig) (texts : list string) (s : model_state)
  : model_state :=
  fold_left (fun s' t => snd (compute B config t s')) texts s.

(** A parameter holding the gradient [g] gives it, whatever it held. *)
Definition with_grad (g : string -> option tensor) (p : parameter)
  : parameter :=
  {| p_name := p_name p; p_data := p_data p; p_grad := g (p_name p) |}.

(** The items of the trace, read off the weights and the gradient. *)
Definition items_of_weights (config : NoveltyConfig)
    (g : string -> option tensor) (w : list (string * tensor)) : list R :=
  flat_map
    (fun nw =>
       if selected config (fst nw) then
         match g (fst nw) with
         | Some gv => [tsum (pow2 gv)]
         | None => []
         end
       else [])
    w.

(** What step 2 returns or raises, as a function of the weights alone. *)
Definition fisher_of_weights {graph : Type} (B : backend graph)
    (config : NoveltyConfig) (ids : list nat) (w : list (string * tensor))
  : outcome R :=
  match forward_labels B false w ids with
  | Ok gr =>
      match backward B gr with
      | Ok g => Ok (py_sum (items_of_weights config g w))
      | Raise e => Raise e
      end
  | Raise e => Raise e
  end.

(** What one parameter adds to the trace, given the gradient [g] of the
    backward pass. *)
Definition contribution (config : NoveltyConfig)
    (g : string -> option tensor) (p : parameter) : R :=
  if selected config (p_name p) then
    match g (p_name p) with
    | Some gv => tsum (pow2 gv)
    | None => 0
    end
  else 0.

(** *** The specification's error class *)

(** The exception class the specification names.  No statement of the
    source raises it. *)
Definition InvalidInputError : exn := PyExc "InvalidInputError".

(** ** A small concrete backend

    One token per character, a two-word vocabulary with the constant
    final logits [0; ln 2] (probabilities 1/3 and 2/3), and a loss whose
    gradient reaches [lm_head.weight] only. *)

Definition char_tokenizer (t : string) : outcome (list nat) :=
  Ok (map nat_of_ascii (list_ascii_of_string t)).

Definition toy_grad (n : string) : option tensor :=
  if String.eqb n "lm_head.weight" then Some [1; 2] else None.

Definition toy_backend : backend unit := {|
  tokenizer := char_tokenizer;
  forward := fun _ _ input_ids => Ok (map (fun _ => [0; ln 2]) input_ids);
  forward_labels := fun _ _ _ => Ok tt;
  backward := fun _ => Ok toy_grad
|}.

Definition toy_model : model_state := {|
  training := true;
  named_parameters :=
    [ {| p_name := "wte.weight"; p_data := [1; 1]; p_grad := Some [7; 7] |};
      {| p_name := "lm_head.weight"; p_data := [3; 4];
         p_grad := Some [5; 5] |} ]
|}.

(** Two configurations that list the same layers in another order, one of
    them twice. *)
Definition config_ab : NoveltyConfig := {|
  attention_normalizer := 512;
  eps := 1 / 1000000;
  target_layers := ["wte"%string; "lm_head"%string];
  novelty_threshold := 5 / 10
|}.

Definition config_bab : NoveltyConfig := {|
  attention_normalizer := 512;
  eps := 1 / 1000000;
  target_layers := ["lm_head"%string; "wte"%string; "lm_head"%string];
  novelty_threshold := 5 / 10
|}.

(** The loop's state when [run_simulation_2d] enters it with the small
    model. *)
Definition toy_start : sim_state := {|
  model := toy_model;
  data_log := [];
  metrics := {| m_novelty := []; m_kl := []; m_fisher := [] |}
|}.

(** A configuration whose normalizer is zero, and one whose target layer
    occurs in no parameter name. *)
Definition config_zero_normalizer : NoveltyConfig := {|
  attention_normalizer := 0;
  eps := 1 / 1000000;
  target_layers := ["lm_head"%string];
  novelty_threshold := 5 / 10
|}.

Definition config_unmatched : NoveltyConfig := {|
  attention_normalizer := 512;
  eps := 1 / 1000000;
  target_layers := ["attn"%string];
  novelty_threshold := 5 / 10
|}.

(** The small backend with every logit raised by 1, and with equal
    logits. *)
Definition toy_backend_shifted : backend unit := {|
  tokenizer := char_tokenizer;
  forward := fun _ _ input_ids =>
    Ok (map (fun _ => [0 + 1; ln 2 + 1]) input_ids);
  forward_labels := fun _ _ _ => Ok tt;
  backward := fun _ => Ok toy_grad
|}.


(** ** The hardware rig: [Power Metrics Test.py] *)

Definition ROUNDS_PER_INST : nat := 25.
Definition CPU_TDP_WATTS : R := 25.

(** One pass of the inner loop of [cpu_workload] (lines 175-176):
    [result = (result * 31 + byte) & 0xFFFFFFFF] and then
    [result ^= (result << 13) & 0xFFFFFFFF]. *)
Definition mix_step (byte result : Z) : Z :=
  let result := Z.land (result * 31 + byte) 0xFFFFFFFF in
  Z.lxor result (Z.land (Z.shiftl result 13) 0xFFFFFFFF).

(** The second statement of the loop body, read on a value already
    masked to 32 bits. *)
Definition xorshift13 (y : Z) : Z :=
  Z.lxor y (Z.shiftl y 13 mod 2 ^ 32)%Z.

(** [for _ in range(250): ...] for one byte of the data. *)
Definition mix_byte (result : Z) (b : Byte.byte) : Z :=
  Nat.iter 250 (mix_step (Z.of_N (Byte.to_N b))) result.

(** [cpu_workload(data)] *)
Definition cpu_workload (data : list Byte.byte) : Z :=
  fold_left mix_byte data 0%Z.

(** The three payloads [rng.choice] draws from (line 243). *)
Definition payloads : list (list Byte.byte) :=
  map list_byte_of_string
    ["GPT_LAYER_ACT"%string; "NEURAL_W_SYNC"%string; "SOTA_P_PROBE"%string].

(** The shared [stats] dict. *)
Record rig_stats : Type := {
  cpu_watts : list R;
  nj_bits : list R;
  total_bits : nat
}.

(** What one round of [run_instance] records (lines 247-268), given the
    payload drawn, the load [psutil.cpu_percent()] returned and the
    duration [t_end - t_start] measured. *)
Definition record_round (data : list Byte.byte) (load dur : R)
    (stats : rig_stats) : rig_stats :=
  let bits := (List.length data * 8)%nat in
  let cpu_w := (load / 100) * CPU_TDP_WATTS in
  let joules := cpu_w * dur in
  let nj_per_bit :=
    if (0 <? bits)%nat then (joules / INR bits) * 1000000000 else 0 in
  {| cpu_watts := cpu_watts stats ++ [cpu_w];
     nj_bits := nj_bits stats ++ [nj_per_bit];
     total_bits := (total_bits stats + bits)%nat |}.

(** The rounds of one call, in order; each round is given as the payload,
    the load and the duration it measured. *)
Definition record_rounds (rounds : list (list Byte.byte * R * R))
    (stats : rig_stats) : rig_stats :=
  fold_left
    (fun st r => record_round (fst (fst r)) (snd (fst r)) (snd r) st)
    rounds stats.

(** [np.roll(buf, -1)] on the flattened buffer. *)
Definition np_roll_left (buf : list R) : list R :=
  match buf with
  | [] => []
  | x :: t => t ++ [x]
  end.

(** [buf[0, -1] = v]: on an empty axis the index is out of bounds. *)
Definition set_last (v : R) (buf : list R) : outcome (list R) :=
  match buf with
  | [] => Raise IndexError
  | _ :: _ => Ok (removelast buf ++ [v])
  end.

(** The heat buffer after one [update_live_metrics] (lines 229-230). *)
Definition update_heat (heat_val : R) (buf : list R) : outcome (list R) :=
  set_last heat_val (np_roll_left buf).

(** The heat buffer after the updates for [vals], oldest first. *)
Fixpoint update_heats (vals : list R) (buf : list R) : outcome (list R) :=
  match vals with
  | [] => Ok buf
  | v :: vals' =>
      match update_heat v buf with
      | Ok buf' => update_heats vals' buf'
      | Raise e => Raise e
      end
  end.

(** [np.zeros((1, 100))] *)
Definition heat_buffer_init : list R := repeat 0 100.

(** ** Reasoning about blocks *)

Lemma bind_Ok {St A C} (c : M St A) (k : A -> M St C) s b s' :
  bind c k s = (Ok b, s') ->
  exists a s1, c s = (Ok a, s1) /\ k a s1 = (Ok b, s').
Proof.
  unfold bind. destruct (c s) as [[a | e] s1]; intros H.
  - exists a, s1. split; [reflexivity | exact H].
  - discriminate H.
Qed.

Lemma bind_step {St A C} (c : M St A) (k : A -> M St C) s a s1 :
  c s = (Ok a, s1) -> bind c k s = k a s1.
Proof. unfold bind. intros ->. reflexivity. Qed.

Lemma bind_raise {St A C} (c : M St A) (k : A -> M St C) s e s1 :
  c s = (Raise e, s1) -> bind c k s = (Raise e, s1).
Proof. unfold bind. intros ->. reflexivity. Qed.

Lemma lift_Ok {St A} (o : outcome A) (s s' : St) a :
  lift o s = (Ok a, s') -> o = Ok a /\ s' = s.
Proof. unfold lift. intros H. inversion H. split; reflexivity. Qed.

(** Splits a hypothesis [bind c k s = (Ok _, _)] into its two halves:
    [H1] for the first block, [H] for the rest. *)
Tactic Notation "bind_inv" hyp(H) "as" ident(a) ident(s1) ident(H1) :=
  apply bind_Ok in H; destruct H as (a & s1 & H1 & H).

Lemma py_truediv_Ok a b q :
  py_truediv a b = Ok q -> b <> 0 /\ q = a / b.
Proof.
  unfold py_truediv. destruct (Req_dec_T b 0) as [E | N]; intros H.
  - discriminate H.
  - inversion H. split; [exact N | reflexivity].
Qed.

Lemma py_truediv_nonzero a b :
  b <> 0 -> py_truediv a b = Ok (a / b).
Proof.
  intros N. unfold py_truediv.
  destruct (Req_dec_T b 0) as [E | _]; [contradiction | reflexivity].
Qed.

Lemma novelty_functional_Ok config k f n v :
  novelty_functional config k f n = Ok v ->
  v = (k * f) / ((INR n / attention_normalizer config) + eps config).
Proof.
  unfold novelty_functional.
  destruct (py_truediv (INR n) (attention_normalizer config)) as [q | e] eqn:E;
    [ | discriminate ].
  apply py_truediv_Ok in E. destruct E as [_ ->].
  intros H. apply py_truediv_Ok in H. destruct H as [_ ->]. reflexivity.
Qed.

Lemma weights_model_eval s : weights (model_eval s) = weights s.
Proof. reflexivity. Qed.

(** ** C1: the returned novelty is the functional of the returned fields *)

(** C1. Whenever the per-text evaluation returns, the ["novelty"] entry of
    the returned dict equals
    [(kl * fisher) / ((tokens / attention_normalizer) + eps)] computed
    from the ["kl"], ["fisher"] and ["tokens"] entries of the same dict
    and the engine's configuration. *)
Theorem compute_novelty_formula {graph : Type} (B : backend graph)
    (config : NoveltyConfig) (t : string) (s s' : model_state)
    (r : EvaluationResult) :
  compute B config t s = (Ok r, s') ->
  novelty r =
    (kl r * fisher r) /
    ((INR (tokens r) / attention_normalizer config) + eps config).
Proof.
  unfold compute. intros H.
  bind_inv H as s0 s1 Hget.
  bind_inv H as p s2 Hnext.
  bind_inv H as ids s3 Htok.
  bind_inv H as kl_v s4 Hkl.
  bind_inv H as fisher_trace s5 Hfisher.
  bind_inv H as novelty_v s6 Hnov.
  apply lift_Ok in Hnov. destruct Hnov as [Hnov _].
  unfold ret in H. inversion H; subst; simpl.
  apply novelty_functional_Ok. exact Hnov.
Qed.

(** ** What each stage returns *)

Section Stages.

Context {graph : Type}.
Variable B : backend graph.
Variable config : NoveltyConfig.

Lemma distribution_analyzer_Ok ids s rows logits :
  forward B (training s) (weights s) ids = Ok rows ->
  final_position rows = Ok logits ->
  distribution_analyzer B ids s = (Ok (kl_of_logits logits), s).
Proof.
  intros Hf Hl. unfold distribution_analyzer, bind, get, lift, ret.
  rewrite Hf, Hl. reflexivity.
Qed.

Lemma distribution_analyzer_inv ids s v s' :
  distribution_analyzer B ids s = (Ok v, s') ->
  exists rows logits,
    forward B (training s) (weights s) ids = Ok rows /\
    final_position rows = Ok logits /\
    v = kl_of_logits logits /\ s' = s.
Proof.
  unfold distribution_analyzer, bind, get, lift, ret.
  destruct (forward B (training s) (weights s) ids) as [rows | e] eqn:Hf;
    [ | discriminate ].
  destruct (final_position rows) as [logits | e] eqn:Hl; [ | discriminate ].
  intros H. inversion H. subst. exists rows, logits.
  split; [reflexivity | split; [exact Hl | split; reflexivity]].
Qed.

(** Step 1 never touches the model object, whatever its outcome. *)
Lemma distribution_analyzer_state ids s :
  snd (distribution_analyzer B ids s) = s.
Proof.
  unfold distribution_analyzer, bind, get, lift, ret.
  destruct (forward B (training s) (weights s) ids) as [rows | e];
    [ | reflexivity ].
  destruct (final_position rows) as [logits | e]; reflexivity.
Qed.

Lemma sensitivity_analyzer_Ok ids s gr g :
  forward_labels B false (weights s) ids = Ok gr ->
  backward B gr = Ok g ->
  sensitivity_analyzer B config ids s =
    (Ok (py_sum (fisher_items config
                   (named_parameters (after_backward g s)))),
     zero_grad (after_backward g s)).
Proof.
  intros Hf Hb.
  unfold sensitivity_analyzer, bind, modify, get, lift, ret. simpl.
  rewrite weights_model_eval, Hf, Hb. reflexivity.
Qed.

Lemma sensitivity_analyzer_inv ids s v s' :
  sensitivity_analyzer B config ids s = (Ok v, s') ->
  exists gr g,
    forward_labels B false (weights s) ids = Ok gr /\
    backward B gr = Ok g /\
    v = py_sum (fisher_items config
                  (named_parameters (after_backward g s))) /\
    s' = zero_grad (after_backward g s).
Proof.
  unfold sensitivity_analyzer, bind, modify, get, lift, ret. simpl.
  rewrite weights_model_eval.
  destruct (forward_labels B false (weights s) ids) as [gr | e] eqn:Hf;
    [ | discriminate ].
  destruct (backward B gr) as [g | e] eqn:Hb; [ | discriminate ].
  intros H. inversion H. subst. exists gr, g.
  split; [reflexivity | split; [exact Hb | split; reflexivity]].
Qed.

(** The evaluation returns whenever the collaborators do, the sequence
    has a final position and neither division has a zero divisor. *)
Lemma compute_returns t s ids rows gr g :
  named_parameters s <> [] ->
  tokenizer B t = Ok ids ->
  forward B (training s) (weights s) ids = Ok rows ->
  rows <> [] ->
  forward_labels B false (weights s) ids = Ok gr ->
  backward B gr = Ok g ->
  attention_normalizer config <> 0 ->
  INR (List.length ids) / attention_normalizer config + eps config <> 0 ->
  exists r,
    compute B config t s = (Ok r, zero_grad (after_backward g s)).
Proof.
  intros Hp Ht Hf Hr Hl Hb Hn Hd.
  destruct (final_position rows) as [logits | e] eqn:Hlast.
  2: { destruct rows; [contradiction | discriminate]. }
  eexists. unfold compute.
  rewrite (bind_step get _ s s s) by reflexivity.
  destruct (named_parameters s) as [ | p ps] eqn:Eps; [contradiction | ].
  rewrite (bind_step (lift (next_parameter s)) _ s p s)
    by (unfold lift, next_parameter; rewrite Eps; reflexivity).
  rewrite (bind_step (lift (tokenizer B t)) _ s ids s)
    by (unfold lift; rewrite Ht; reflexivity).
  rewrite (bind_step _ _ _ _ _ (distribution_analyzer_Ok _ _ _ _ Hf Hlast)).
  rewrite (bind_step _ _ _ _ _ (sensitivity_analyzer_Ok _ _ _ _ Hl Hb)).
  unfold bind, lift, ret, novelty_functional.
  rewrite (py_truediv_nonzero _ _ Hn), (py_truediv_nonzero _ _ Hd).
  reflexivity.
Qed.

End Stages.

(** The small backend returns on a one-character text. *)
Lemma toy_compute_state :
  exists r,
    compute toy_backend default_config "a" toy_model =
      (Ok r, zero_grad (after_backward toy_grad toy_model)).
Proof.
  apply (compute_returns toy_backend default_config "a" toy_model
           [97%nat] [[0; ln 2]] tt toy_grad);
    try reflexivity; simpl; try discriminate; try lra.
Qed.

Lemma toy_compute_returns :
  exists r s',
    compute toy_backend default_config "a" toy_model = (Ok r, s').
Proof.
  destruct toy_compute_state as [r Hr].
  exists r. eexists. exact Hr.
Qed.

(** C1 at the small backend. *)
Lemma compute_novelty_formula_witness :
  exists r s',
    compute toy_backend default_config "a" toy_model = (Ok r, s') /\
    novelty r =
      (kl r * fisher r) /
      ((INR (tokens r) / attention_normalizer default_config)
       + eps default_config).
Proof.
  destruct toy_compute_returns as (r & s' & H).
  exists r, s'. split.
  - exact H.
  - exact (compute_novelty_formula toy_backend default_config "a"
             toy_model s' r H).
Defined.

(** ** C2: the direction of the divergence *)

Lemma tsum_exp_pos (x : list R) : x <> [] -> 0 < tsum (map exp x).
Proof.
  intros Hx. destruct x as [ | a x]; [contradiction | ].
  clear Hx. revert a. induction x as [ | b x IH]; intros a; simpl.
  - pose proof (exp_pos a). lra.
  - pose proof (exp_pos a). specialize (IH b). simpl in IH. lra.
Qed.

(** One term of [F.kl_div] on log-probabilities is one term of [KL]. *)
Lemma kl_pointwise_term (S V xi : R) :
  0 < S -> 0 < V ->
  kl_pointwise (- ln V) (xi - ln S) =
  exp xi / S * (ln (exp xi / S) - ln (/ V)).
Proof.
  intros HS HV. unfold kl_pointwise.
  assert (Hexp : exp (xi - ln S) = exp xi / S).
  { unfold Rminus. rewrite exp_plus, exp_Ropp, (exp_ln S HS). reflexivity. }
  assert (Hln : ln (exp xi / S) = xi - ln S).
  { unfold Rdiv. rewrite ln_mult.
    - rewrite ln_exp, (ln_Rinv S HS). reflexivity.
    - apply exp_pos.
    - apply Rinv_0_lt_compat. exact HS. }
  rewrite Hexp, Hln, (ln_Rinv V HV). reflexivity.
Qed.

Lemma kl_row_KL (S V : R) (n : nat) (l : list R) :
  0 < S -> 0 < V -> List.length l = n ->
  kl_row (map (fun _ => - ln V) (map (fun xi => xi - ln S) l))
         (map (fun xi => xi - ln S) l) =
  KL (map (fun xi => exp xi / S) l) (repeat (/ V) n).
Proof.
  intros HS HV. revert n.
  induction l as [ | xi l IH]; intros n Hn; simpl.
  - reflexivity.
  - destruct n as [ | n]; [discriminate | ]. simpl.
    rewrite (kl_pointwise_term S V xi HS HV).
    rewrite (IH n) by (simpl in Hn; lia). reflexivity.
Qed.

(** What step 1 computes from the final row [x] of logits. *)
Lemma kl_of_logits_direction (x : list R) :
  kl_of_logits [x] = KL_model_reference x.
Proof.
  unfold kl_of_logits, KL_model_reference, kl_div, expand_as, log_softmax.
  simpl. unfold log_softmax_row, softmax_row, uniform.
  destruct x as [ | a x'] eqn:Ex.
  - simpl. lra.
  - rewrite <- Ex.
    assert (HS : 0 < tsum (map exp x)).
    { apply tsum_exp_pos. rewrite Ex. discriminate. }
    assert (HV : 0 < INR (List.length x)).
    { apply lt_0_INR. rewrite Ex. simpl. lia. }
    rewrite (kl_row_KL _ _ (List.length x) x HS HV eq_refl). lra.
Qed.

Lemma last_In {A} (l : list A) (d : A) : In (last l d) (d :: l).
Proof.
  induction l as [ | a l IH].
  - left. reflexivity.
  - destruct l as [ | b l'].
    + right. left. reflexivity.
    + change (last (a :: b :: l') d) with (last (b :: l') d).
      destruct IH as [H | H].
      * left. exact H.
      * right. right. exact H.
Qed.

Lemma final_position_row (rows logits : list (list R)) :
  final_position rows = Ok logits ->
  exists x, logits = [x] /\ In x rows.
Proof.
  destruct rows as [ | r rows']; simpl; intros H; [discriminate | ].
  inversion H. exists (last rows' r). split; [reflexivity | ].
  apply last_In.
Qed.

(** The two divergences at probabilities (1/3, 2/3). *)
Lemma KL_model_reference_at :
  KL_model_reference [0; ln 2] = 5 / 3 * ln 2 - ln 3.
Proof.
  unfold KL_model_reference, softmax_row, uniform. simpl.
  rewrite exp_0, (exp_ln 2) by lra.
  replace (1 / (1 + (2 + 0))) with (/ 3) by lra.
  replace (2 / (1 + (2 + 0))) with (2 * / 3) by lra.
  replace (/ (1 + 1)) with (/ 2) by lra.
  rewrite (ln_mult 2 (/ 3)) by lra.
  rewrite (ln_Rinv 3), (ln_Rinv 2) by lra.
  lra.
Qed.

Lemma KL_reference_model_at :
  KL_reference_model [0; ln 2] = ln 3 - 3 / 2 * ln 2.
Proof.
  unfold KL_reference_model, softmax_row, uniform. simpl.
  rewrite exp_0, (exp_ln 2) by lra.
  replace (1 / (1 + (2 + 0))) with (/ 3) by lra.
  replace (2 / (1 + (2 + 0))) with (2 * / 3) by lra.
  replace (/ (1 + 1)) with (/ 2) by lra.
  rewrite (ln_mult 2 (/ 3)) by lra.
  rewrite (ln_Rinv 3), (ln_Rinv 2) by lra.
  lra.
Qed.

Lemma ln_2_3_independent : 19 * ln 2 <> 12 * ln 3.
Proof.
  assert (H2 : ln (2 ^ 19) = 19 * ln 2).
  { rewrite ln_pow by lra. replace (INR 19) with 19 by (simpl; lra).
    reflexivity. }
  assert (H3 : ln (3 ^ 12) = 12 * ln 3).
  { rewrite ln_pow by lra. replace (INR 12) with 12 by (simpl; lra).
    reflexivity. }
  assert (Hlt : ln (2 ^ 19) < ln (3 ^ 12)).
  { apply ln_increasing; simpl; lra. }
  lra.
Qed.

Lemma last_cons_default {A} (l : list A) (a d : A) :
  last (a :: l) d = last l a.
Proof.
  revert a d. induction l as [ | b l IH]; intros a d.
  - reflexivity.
  - change (last (a :: b :: l) d) with (last (b :: l) d).
    rewrite (IH b d), (IH b a). reflexivity.
Qed.

(** C2, as stated, fails: with final-position probabilities (1/3, 2/3)
    over a two-word vocabulary, the divergence step 1 returns is not
    KL(reference‖model). *)
Lemma distribution_analyzer_not_reference_model :
  forward toy_backend (training toy_model) (weights toy_model) [97%nat]
    = Ok [[0; ln 2]] /\
  exists v,
    distribution_analyzer toy_backend [97%nat] toy_model
      = (Ok v, toy_model) /\
    v <> KL_reference_model [0; ln 2].
Proof.
  split; [reflexivity | ].
  exists (kl_of_logits [[0; ln 2]]). split.
  - apply (distribution_analyzer_Ok toy_backend [97%nat] toy_model
             [[0; ln 2]] [[0; ln 2]]); reflexivity.
  - rewrite kl_of_logits_direction, KL_model_reference_at,
      KL_reference_model_at.
    pose proof ln_2_3_independent. lra.
Qed.

(** C2, amended. Whenever the forward pass returns at least one position,
    step 1 returns, from the final row [x] of logits, the value of
    [F.kl_div] on the scalar [-ln V] broadcast over the vocabulary
    (input) and the log-softmax of [x] (target), both log-transformed,
    with a batch-mean over a batch of one row; that value is
    KL(model‖reference), [sum_i p_i * (ln p_i - ln (1/V))] with [p] the
    softmax of [x].  The model object is left as it was. *)
Theorem distribution_analyzer_model_reference {graph : Type}
    (B : backend graph) (input_ids : list nat) (s : model_state)
    (rows : list (list R)) :
  forward B (training s) (weights s) input_ids = Ok rows ->
  rows <> [] ->
  let x := last rows [] in
  let log_p := log_softmax [x] in
  let log_uniform := - ln (INR (List.length x)) in
  distribution_analyzer B input_ids s =
    (Ok (kl_div (expand_as log_uniform log_p) log_p), s) /\
  List.length log_p = 1%nat /\
  kl_div (expand_as log_uniform log_p) log_p = KL_model_reference x.
Proof.
  intros Hf Hr x log_p log_uniform.
  destruct rows as [ | r rows']; [contradiction | ].
  assert (Hx : x = last rows' r) by apply last_cons_default.
  split; [ | split ].
  - rewrite (distribution_analyzer_Ok B input_ids s (r :: rows')
               [last rows' r] Hf eq_refl).
    subst log_p log_uniform. rewrite Hx. reflexivity.
  - reflexivity.
  - apply (kl_of_logits_direction x).
Qed.

(** C2 amended, at the small backend. *)
Lemma distribution_analyzer_model_reference_witness :
  exists v,
    distribution_analyzer toy_backend [97%nat] toy_model
      = (Ok v, toy_model) /\
    v = KL_model_reference [0; ln 2].
Proof.
  destruct (distribution_analyzer_model_reference toy_backend [97%nat]
              toy_model [[0; ln 2]]) as (Hda & _ & Hkl).
  - reflexivity.
  - discriminate.
  - eexists. split; [exact Hda | exact Hkl].
Defined.

(** ** C4: non-negativity and the positive denominator *)

Lemma ln_le_minus_one (y : R) : 0 < y -> ln y <= y - 1.
Proof.
  intros Hy. pose proof (exp_ineq1_le (ln y)) as H.
  rewrite (exp_ln y Hy) in H. lra.
Qed.

(** One term of Gibbs' inequality. *)
Lemma KL_term_lower (p q : R) :
  0 < p -> 0 < q -> p - q <= p * (ln p - ln q).
Proof.
  intros Hp Hq.
  assert (Hr : 0 < q / p) by (apply Rdiv_lt_0_compat; assumption).
  pose proof (ln_le_minus_one (q / p) Hr) as H.
  unfold Rdiv in H. rewrite ln_mult in H;
    [ | exact Hq | apply Rinv_0_lt_compat; exact Hp ].
  rewrite (ln_Rinv p Hp) in H.
  assert (Hm : p * (ln q + - ln p) <= p * (q * / p - 1)).
  { apply Rmult_le_compat_l; lra. }
  replace (p * (q * / p - 1)) with (q - p) in Hm by (field; lra).
  lra.
Qed.

Lemma KL_lower (P Q : list R) :
  Forall (fun p => 0 < p) P -> Forall (fun q => 0 < q) Q ->
  List.length P = List.length Q ->
  tsum P - tsum Q <= KL P Q.
Proof.
  intros HP. revert Q.
  induction HP as [ | p P Hp HP IH]; intros Q HQ Hlen.
  - destruct Q; [simpl; lra | discriminate].
  - destruct Q as [ | q Q]; [discriminate | ].
    inversion HQ as [ | q' Q' Hq HQ']; subst.
    simpl in Hlen. injection Hlen as Hlen.
    specialize (IH Q HQ' Hlen).
    pose proof (KL_term_lower p q Hp Hq). simpl. lra.
Qed.

Lemma tsum_map_div (S : R) (l : list R) :
  tsum (map (fun xi => exp xi / S) l) = tsum (map exp l) / S.
Proof.
  induction l as [ | a l IH]; simpl.
  - lra.
  - rewrite IH. lra.
Qed.

Lemma tsum_repeat (c : R) (n : nat) : tsum (repeat c n) = INR n * c.
Proof.
  induction n as [ | n IH].
  - simpl. lra.
  - change (tsum (repeat c (S n))) with (c + tsum (repeat c n)).
    rewrite IH, S_INR. lra.
Qed.

Lemma softmax_row_pos (x : list R) :
  Forall (fun p => 0 < p) (softmax_row x).
Proof.
  unfold softmax_row. apply Forall_forall. intros p Hin.
  apply in_map_iff in Hin. destruct Hin as (xi & <- & Hin).
  apply Rdiv_lt_0_compat; [apply exp_pos | ].
  apply tsum_exp_pos. intros ->. exact Hin.
Qed.

(** Gibbs' inequality for the divergence step 1 returns. *)
Lemma KL_model_reference_nonneg (x : list R) : 0 <= KL_model_reference x.
Proof.
  destruct x as [ | a x'] eqn:Ex; [simpl; unfold KL_model_reference; simpl; lra | ].
  rewrite <- Ex. unfold KL_model_reference.
  assert (HS : 0 < tsum (map exp x)).
  { apply tsum_exp_pos. rewrite Ex. discriminate. }
  assert (HV : 0 < INR (List.length x)).
  { apply lt_0_INR. rewrite Ex. simpl. lia. }
  assert (H : tsum (softmax_row x) - tsum (uniform (List.length x))
              <= KL (softmax_row x) (uniform (List.length x))).
  { apply KL_lower.
    - apply softmax_row_pos.
    - unfold uniform. apply Forall_forall. intros q Hq.
      apply repeat_spec in Hq. subst q. apply Rinv_0_lt_compat. exact HV.
    - unfold softmax_row, uniform.
      rewrite length_map, repeat_length. reflexivity. }
  unfold softmax_row at 1 in H. rewrite tsum_map_div in H.
  unfold uniform at 1 in H. rewrite tsum_repeat in H.
  replace (tsum (map exp x) / tsum (map exp x)) with 1 in H by (field; lra).
  replace (INR (List.length x) * / INR (List.length x)) with 1 in H
    by (field; lra).
  lra.
Qed.

Lemma tsum_pow2_nonneg (g : tensor) : 0 <= tsum (pow2 g).
Proof.
  induction g as [ | a g IH].
  - simpl. lra.
  - change (tsum (pow2 (a :: g))) with (a * a + tsum (pow2 g)).
    pose proof (Rle_0_sqr a) as Ha. unfold Rsqr in Ha. lra.
Qed.

Lemma py_sum_from (l : list R) (a : R) :
  fold_left Rplus l a = a + tsum l.
Proof.
  revert a. induction l as [ | b l IH]; intros a; simpl.
  - lra.
  - rewrite IH. lra.
Qed.

Lemma py_sum_tsum (l : list R) : py_sum l = tsum l.
Proof. unfold py_sum. rewrite py_sum_from. lra. Qed.

Lemma tsum_app (l1 l2 : list R) : tsum (l1 ++ l2) = tsum l1 + tsum l2.
Proof.
  induction l1 as [ | a l1 IH]; simpl.
  - lra.
  - rewrite IH. lra.
Qed.

Lemma fisher_items_nonneg config (ps : list parameter) :
  0 <= py_sum (fisher_items config ps).
Proof.
  rewrite py_sum_tsum. unfold fisher_items.
  induction ps as [ | p ps IH]; simpl.
  - lra.
  - rewrite tsum_app.
    destruct (selected config (p_name p)); [ | simpl; lra ].
    destruct (p_grad p) as [g | ]; [ | simpl; lra ].
    pose proof (tsum_pow2_nonneg g). simpl. lra.
Qed.

Lemma denominator_lower config (n : nat) :
  0 < attention_normalizer config ->
  eps config <= INR n / attention_normalizer config + eps config.
Proof.
  intros Hn.
  assert (0 <= INR n / attention_normalizer config).
  { apply Rmult_le_pos; [apply pos_INR | ].
    apply Rlt_le, Rinv_0_lt_compat. exact Hn. }
  lra.
Qed.

Lemma novelty_functional_returns config (k f : R) (n : nat) :
  0 < attention_normalizer config -> 0 < eps config ->
  novelty_functional config k f n =
    Ok (k * f / (INR n / attention_normalizer config + eps config)).
Proof.
  intros Hn He. unfold novelty_functional.
  rewrite py_truediv_nonzero by lra.
  rewrite py_truediv_nonzero; [reflexivity | ].
  pose proof (denominator_lower config n Hn). lra.
Qed.

Lemma compute_inv {graph : Type} (B : backend graph) config t s r s' :
  compute B config t s = (Ok r, s') ->
  exists ids logits gr g,
    tokenizer B t = Ok ids /\
    (exists rows, forward B (training s) (weights s) ids = Ok rows /\
                  final_position rows = Ok logits) /\
    forward_labels B false (weights s) ids = Ok gr /\
    backward B gr = Ok g /\
    kl r = kl_of_logits logits /\
    fisher r = py_sum (fisher_items config
                         (named_parameters (after_backward g s))) /\
    tokens r = List.length ids /\
    novelty_functional config (kl r) (fisher r) (tokens r)
      = Ok (novelty r) /\
    s' = zero_grad (after_backward g s).
Proof.
  unfold compute. intros H.
  bind_inv H as s0 s1 Hget. inversion Hget; subst s0 s1.
  bind_inv H as p s2 Hnext. apply lift_Ok in Hnext.
  destruct Hnext as [_ ->].
  bind_inv H as ids s3 Htok. apply lift_Ok in Htok.
  destruct Htok as [Htok ->].
  bind_inv H as kl_v s4 Hkl.
  apply distribution_analyzer_inv in Hkl.
  destruct Hkl as (rows & logits & Hf & Hl & -> & ->).
  bind_inv H as fisher_trace s5 Hfisher.
  apply sensitivity_analyzer_inv in Hfisher.
  destruct Hfisher as (gr & g & Hfl & Hb & -> & ->).
  bind_inv H as novelty_v s6 Hnov. apply lift_Ok in Hnov.
  destruct Hnov as [Hnov ->].
  unfold ret in H. inversion H; subst; simpl.
  exists ids, logits, gr, g.
  repeat (split; [first [assumption | reflexivity | eauto] | ]).
  reflexivity.
Qed.

(** C4, as stated, fails on doubles.  With finite, non-negative
    [kl = 1] and [fisher = 2^127], and the valid configuration
    [attention_normalizer = 2^1000 > 0], [eps = 2^-1000 > 0], line 62 at
    one token divides [2^127] by [2^-999]: the quotient overflows and the
    novelty returned is infinite, not finite.  And once the trace itself
    has overflowed to infinity, [kl = 0] gives the novelty NaN, which is
    not [>= 0] (here with [attention_normalizer = 512], [eps = 2^-20]). *)
Section Doubles.

Import PrimFloat.

Lemma novelty_functional_f64_not_finite :
  (PrimFloat.is_finite 1 = true /\
   PrimFloat.is_finite 0x1p127 = true /\
   PrimFloat.leb 0 1 = true /\
   PrimFloat.leb 0 0x1p127 = true /\
   PrimFloat.ltb 0 0x1p1000 = true /\
   PrimFloat.ltb 0 0x1p-1000 = true /\
   novelty_functional_f64 0x1p1000 0x1p-1000 1 0x1p127 1
     = Ok PrimFloat.infinity /\
   PrimFloat.is_finite PrimFloat.infinity = false) /\
  (novelty_functional_f64 512 0x1p-20 0 PrimFloat.infinity 1
     = Ok PrimFloat.nan /\
   PrimFloat.leb 0 PrimFloat.nan = false)%float.
Proof.
  repeat split; vm_compute; reflexivity.
Qed.

End Doubles.

(** C4, amended. With the arithmetic taken exactly (over the reals) and a
    valid configuration ([attention_normalizer > 0], [eps > 0]): every
    result the evaluation returns has [kl >= 0], [fisher >= 0] and
    [novelty >= 0]; and for all non-negative [kl] and [fisher] and every
    token count the denominator
    [(token_count / attention_normalizer) + eps] is at least [eps], hence
    strictly positive, so the functional raises no [ZeroDivisionError] and
    returns a non-negative value.  Nothing is said of finiteness. *)
Theorem compute_nonnegative {graph : Type} (B : backend graph)
    (config : NoveltyConfig) (t : string) (s : model_state) :
  0 < attention_normalizer config ->
  0 < eps config ->
  (forall r s',
      compute B config t s = (Ok r, s') ->
      0 <= kl r /\ 0 <= fisher r /\ 0 <= novelty r) /\
  (forall (k f : R) (n : nat),
      0 <= k -> 0 <= f ->
      eps config <= INR n / attention_normalizer config + eps config /\
      0 < INR n / attention_normalizer config + eps config /\
      exists v, novelty_functional config k f n = Ok v /\ 0 <= v).
Proof.
  intros Hn He.
  assert (HB : forall (k f : R) (n : nat),
             0 <= k -> 0 <= f ->
             eps config <= INR n / attention_normalizer config + eps config /\
             0 < INR n / attention_normalizer config + eps config /\
             exists v, novelty_functional config k f n = Ok v /\ 0 <= v).
  { intros k f n Hk Hf.
    pose proof (denominator_lower config n Hn) as Hd.
    split; [exact Hd | ]. split; [lra | ].
    eexists. split; [apply novelty_functional_returns; assumption | ].
    apply Rmult_le_pos.
    - apply Rmult_le_pos; assumption.
    - apply Rlt_le, Rinv_0_lt_compat. lra. }
  split; [ | exact HB ].
  intros r s' H. apply compute_inv in H.
  destruct H as (ids & logits & gr & g & _ & (rows & _ & Hl) & _ & _ &
                 Hkl & Hfi & _ & Hnov & _).
  assert (Hk : 0 <= kl r).
  { apply final_position_row in Hl. destruct Hl as (x & -> & _).
    rewrite Hkl, kl_of_logits_direction. apply KL_model_reference_nonneg. }
  assert (Hf : 0 <= fisher r).
  { rewrite Hfi. apply fisher_items_nonneg. }
  split; [exact Hk | ]. split; [exact Hf | ].
  destruct (HB (kl r) (fisher r) (tokens r) Hk Hf) as (_ & _ & v & Hv & Hv0).
  rewrite Hnov in Hv. inversion Hv. subst v. exact Hv0.
Qed.

(** C4 at the small backend and the default configuration, where the
    evaluation does return a result. *)
Lemma compute_nonnegative_witness :
  0 < attention_normalizer default_config /\
  0 < eps default_config /\
  (exists r s',
      compute toy_backend default_config "a" toy_model = (Ok r, s') /\
      0 <= kl r /\ 0 <= fisher r /\ 0 <= novelty r) /\
  (forall (k f : R) (n : nat),
      0 <= k -> 0 <= f ->
      eps default_config
        <= INR n / attention_normalizer default_config + eps default_config /\
      0 < INR n / attention_normalizer default_config + eps default_config /\
      exists v, novelty_functional default_config k f n = Ok v /\ 0 <= v).
Proof.
  assert (Hn : 0 < attention_normalizer default_config) by (simpl; lra).
  assert (He : 0 < eps default_config) by (simpl; lra).
  split; [exact Hn | ]. split; [exact He | ].
  destruct (compute_nonnegative toy_backend default_config "a" toy_model
              Hn He) as [Hres Hfun].
  split; [ | exact Hfun ].
  destruct toy_compute_returns as (r & s' & H).
  exists r, s'. split; [exact H | exact (Hres r s' H)].
Defined.

(** ** C5: monotonicity of the functional *)






(** ** C6: the alert flag *)

Lemma py_gt_true (x y : R) : py_gt x y = true <-> x > y.
Proof.
  unfold py_gt. destruct (Rgt_dec x y) as [H | H]; split; intros H';
    try assumption; try reflexivity; try discriminate; contradiction.
Qed.

Lemma py_gt_false (x y : R) : py_gt x y = false <-> x <= y.
Proof.
  unfold py_gt. destruct (Rgt_dec x y) as [H | H]; split; intros H';
    try reflexivity; try discriminate; lra.
Qed.

Lemma process_text_Ok {graph : Type} (B : backend graph) config t st st' :
  process_text B config t st = (Ok tt, st') ->
  exists r m',
    compute B config t (model st) = (Ok r, m') /\
    st' = log_result t (is_outlier config r) r
            {| model := m'; data_log := data_log st;
               metrics := metrics st |}.
Proof.
  unfold process_text, bind, on_model, modify.
  destruct (compute B config t (model st)) as [[r | e] m'] eqn:Hc;
    [ | discriminate ].
  intros H. inversion H. exists r, m'. split; reflexivity.
Qed.

(** The rows a run of the loop appends: one per text, in input order,
    each flagged by [is_outlier]. *)
Lemma process_texts_log {graph : Type} (B : backend graph) config texts :
  forall st st',
    process_texts B config texts st = (Ok tt, st') ->
    exists rows,
      data_log st' = data_log st ++ rows /\
      map text rows = texts /\
      Forall (fun e => is_alert e = is_outlier config (res e)) rows.
Proof.
  induction texts as [ | t texts IH]; intros st st' H.
  - simpl in H. unfold ret in H. inversion H; subst.
    exists []. rewrite app_nil_r. repeat split. constructor.
  - simpl in H. apply bind_Ok in H. destruct H as ([] & st1 & H1 & H2).
    apply process_text_Ok in H1. destruct H1 as (r & m' & _ & ->).
    apply IH in H2. destruct H2 as (rows & Hlog & Htexts & Hall).
    exists ({| text := t; is_alert := is_outlier config r; res := r |}
            :: rows).
    split; [ | split ].
    + rewrite Hlog. simpl. rewrite <- app_assoc. reflexivity.
    + simpl. rewrite Htexts. reflexivity.
    + constructor; [reflexivity | exact Hall].
Qed.

(** C6. Every row [run_simulation_2d] hands to the writer is flagged as an
    alert if and only if its novelty is strictly greater than the
    threshold (0.5, from [NoveltyConfig()]), and there is one row per
    input text, in input order; with threshold 0.5 a result of novelty
    0.51 is an alert, one of novelty 0.49 is not, and one of novelty
    exactly 0.5 is not. *)
Theorem run_simulation_2d_alert_iff :
  (forall (graph : Type) (B : backend graph) (loaded : model_state)
          (texts : list string) (rows : list log_entry) (st : sim_state),
      run_simulation_2d B loaded texts = (Ok rows, st) ->
      map text rows = texts /\
      Forall (fun e => is_alert e = true <->
                       novelty (res e) > novelty_threshold default_config)
             rows) /\
  novelty_threshold default_config = 5 / 10 /\
  (forall r, novelty r = 51 / 100 -> is_outlier default_config r = true) /\
  (forall r, novelty r = 49 / 100 -> is_outlier default_config r = false) /\
  (forall r, novelty r = novelty_threshold default_config ->
             is_outlier default_config r = false).
Proof.
  split; [ | split; [reflexivity | repeat split] ].
  - intros graph B loaded texts rows st H. unfold run_simulation_2d in H.
    destruct (process_texts B default_config texts _) as [[[] | e] st1] eqn:Hp;
      [ | discriminate ].
    inversion H; subst. apply process_texts_log in Hp.
    destruct Hp as (rows & Hlog & Htexts & Hall). simpl in Hlog.
    rewrite Hlog. split; [exact Htexts | ].
    apply Forall_forall. intros e He.
    rewrite Forall_forall in Hall. rewrite (Hall e He).
    unfold is_outlier. apply py_gt_true.
  - intros r Hr. unfold is_outlier. apply py_gt_true. rewrite Hr. simpl. lra.
  - intros r Hr. unfold is_outlier. apply py_gt_false. rewrite Hr. simpl. lra.
  - intros r Hr. unfold is_outlier. apply py_gt_false. rewrite Hr. lra.
Qed.

Lemma toy_run_returns :
  exists rows st,
    run_simulation_2d toy_backend toy_model ["a"%string] = (Ok rows, st).
Proof.
  destruct toy_compute_returns as (r & s' & H).
  unfold run_simulation_2d, process_texts, process_text, bind, on_model,
    modify, ret.
  cbn [model]. rewrite H. do 2 eexists. reflexivity.
Qed.

(** C6 on a run of the small backend over one text. *)
Lemma run_simulation_2d_alert_iff_witness :
  exists rows st,
    run_simulation_2d toy_backend toy_model ["a"%string] = (Ok rows, st) /\
    map text rows = ["a"%string] /\
    Forall (fun e => is_alert e = true <->
                     novelty (res e) > novelty_threshold default_config)
           rows.
Proof.
  destruct toy_run_returns as (rows & st & H).
  exists rows, st. split; [exact H | ].
  destruct run_simulation_2d_alert_iff as (Hrun & _).
  exact (Hrun unit toy_backend toy_model ["a"%string] rows st H).
Defined.

(** ** C9: the evaluation never writes a parameter value *)

Create HintDb frame.

Lemma preserves_ret {A} (a : A) : preserves_weights (ret a).
Proof. intros s. reflexivity. Qed.

Lemma preserves_lift {A} (o : outcome A) : preserves_weights (lift o).
Proof. intros s. reflexivity. Qed.

Lemma preserves_get : preserves_weights get.
Proof. intros s. reflexivity. Qed.

Lemma preserves_modify (f : model_state -> model_state) :
  (forall s, weights (f s) = weights s) ->
  preserves_weights (modify f).
Proof. intros Hf s. apply Hf. Qed.

Lemma preserves_bind {A C} (c : M model_state A)
    (k : A -> M model_state C) :
  preserves_weights c ->
  (forall a, preserves_weights (k a)) ->
  preserves_weights (bind c k).
Proof.
  intros Hc Hk s. unfold bind.
  specialize (Hc s). destruct (c s) as [[a | e] s1]; simpl in Hc.
  - rewrite (Hk a s1). exact Hc.
  - exact Hc.
Qed.

Lemma weights_zero_grad s : weights (zero_grad s) = weights s.
Proof.
  unfold weights, zero_grad. simpl. rewrite map_map. reflexivity.
Qed.

Lemma weights_store_grads g s : weights (store_grads g s) = weights s.
Proof.
  unfold weights, store_grads. simpl. rewrite map_map. reflexivity.
Qed.

#[local] Hint Resolve preserves_ret preserves_lift preserves_get
  preserves_modify weights_model_eval weights_zero_grad
  weights_store_grads : frame.

Section Frame.

Context {graph : Type}.
Variable B : backend graph.
Variable config : NoveltyConfig.

Lemma distribution_analyzer_preserves ids :
  preserves_weights (distribution_analyzer B ids).
Proof.
  intros s. rewrite distribution_analyzer_state. reflexivity.
Qed.

Lemma sensitivity_analyzer_preserves ids :
  preserves_weights (sensitivity_analyzer B config ids).
Proof.
  unfold sensitivity_analyzer.
  repeat (apply preserves_bind; [auto with frame | intros ? ]).
  auto with frame.
Qed.

Lemma compute_preserves t : preserves_weights (compute B config t).
Proof.
  unfold compute.
  repeat (apply preserves_bind;
          [ first [ apply distribution_analyzer_preserves
                  | apply sensitivity_analyzer_preserves
                  | auto with frame ]
          | intros ? ]).
  auto with frame.
Qed.

End Frame.

Lemma process_text_weights {graph : Type} (B : backend graph) config t st :
  weights (model (snd (process_text B config t st))) = weights (model st).
Proof.
  unfold process_text, bind, on_model, modify.
  pose proof (compute_preserves B config t (model st)) as H.
  destruct (compute B config t (model st)) as [[r | e] m']; exact H.
Qed.

(** C9. For every evaluation call, whether it returns or raises, the name
    and the value of every parameter of the model are the same after the
    call as before it: the call sets the mode and writes gradient
    accumulators only.  The same holds across the processing loop, which
    touches the model through these calls alone. *)
Theorem compute_weights_unchanged {graph : Type} (B : backend graph)
    (config : NoveltyConfig) :
  (forall (t : string) (s : model_state),
      map (fun p => (p_name p, p_data p))
          (named_parameters (snd (compute B config t s))) =
      map (fun p => (p_name p, p_data p)) (named_parameters s)) /\
  (forall (texts : list string) (st : sim_state),
      map (fun p => (p_name p, p_data p))
          (named_parameters
             (model (snd (process_texts B config texts st)))) =
      map (fun p => (p_name p, p_data p)) (named_parameters (model st))).
Proof.
  split.
  - intros t s. exact (compute_preserves B config t s).
  - intros texts.
    induction texts as [ | t texts IH]; intros st.
    + reflexivity.
    + change (process_texts B config (t :: texts) st)
        with (bind (process_text B config t)
                (fun _ => process_texts B config texts) st).
      unfold bind.
      pose proof (process_text_weights B config t st) as Ht.
      unfold weights in Ht.
      destruct (process_text B config t st) as [[u | e] st1];
        simpl in Ht |- *.
      * rewrite IH. exact Ht.
      * exact Ht.
Qed.

(** The small backend: stale gradients and training mode before the call,
    the same two parameter values after it. *)
Example toy_weights_unchanged :
  map (fun p => (p_name p, p_data p))
      (named_parameters
         (snd (compute toy_backend default_config "a" toy_model))) =
  [("wte.weight"%string, [1; 1]); ("lm_head.weight"%string, [3; 4])].
Proof.
  change (weights (snd (compute toy_backend default_config "a" toy_model))
          = weights toy_model).
  apply compute_preserves.
Qed.

(** ** C8: no gradient leaks from one evaluation into the next *)

Lemma accumulate_into_cleared (g : option tensor) : accumulate None g = g.
Proof. destruct g; reflexivity. Qed.

(** When the trace is read, every accumulator holds the gradient of this
    call's backward pass and nothing else. *)
Lemma after_backward_parameters g s :
  named_parameters (after_backward g s) =
  map (with_grad g) (named_parameters s).
Proof.
  unfold after_backward, store_grads, zero_grad, model_eval. simpl.
  rewrite map_map. apply map_ext. intros p.
  unfold accumulate_param, clear_grad, with_grad. simpl.
  rewrite accumulate_into_cleared. reflexivity.
Qed.

Lemma zero_grad_cleared s :
  Forall (fun p => p_grad p = None) (named_parameters (zero_grad s)).
Proof.
  unfold zero_grad. simpl. apply Forall_forall. intros p Hin.
  apply in_map_iff in Hin. destruct Hin as (q & <- & _). reflexivity.
Qed.

Lemma fisher_items_with_grad config g (ps : list parameter) :
  fisher_items config (map (with_grad g) ps) =
  items_of_weights config g (map (fun p => (p_name p, p_data p)) ps).
Proof.
  unfold fisher_items, items_of_weights.
  induction ps as [ | p ps IH]; simpl.
  - reflexivity.
  - rewrite IH. reflexivity.
Qed.

Section Leakage.

Context {graph : Type}.
Variable B : backend graph.
Variable config : NoveltyConfig.

Lemma sensitivity_analyzer_outcome ids s :
  fst (sensitivity_analyzer B config ids s) =
  fisher_of_weights B config ids (weights s).
Proof.
  unfold fisher_of_weights.
  destruct (forward_labels B false (weights s) ids) as [gr | e] eqn:Hf.
  - destruct (backward B gr) as [g | e] eqn:Hb.
    + rewrite (sensitivity_analyzer_Ok B config ids s gr g Hf Hb).
      cbn [fst].
      rewrite after_backward_parameters, fisher_items_with_grad.
      reflexivity.
    + unfold sensitivity_analyzer, bind, modify, get, lift, ret. simpl.
      rewrite weights_model_eval, Hf, Hb. reflexivity.
  - unfold sensitivity_analyzer, bind, modify, get, lift, ret. simpl.
    rewrite weights_model_eval, Hf. reflexivity.
Qed.

Lemma evaluations_weights texts s :
  weights (evaluations B config texts s) = weights s.
Proof.
  unfold evaluations. revert s.
  induction texts as [ | t texts IH]; intros s; simpl.
  - reflexivity.
  - rewrite IH. apply compute_preserves.
Qed.

End Leakage.

(** C8. Step 2 reads its trace off accumulators that hold the gradient of
    this call's backward pass only (they are cleared before the backward
    pass, so nothing held before is added in), and leaves every
    accumulator cleared after the trace is read.  Hence, for every [N] and
    every [N] consecutive evaluations of any texts, the trace the
    Sensitivity Analyzer computes on a fixed reference input afterwards is
    the one it computes with no evaluation before, and so is the
    ["fisher"] entry of the evaluation of a fixed reference text. *)
Theorem no_gradient_leakage {graph : Type} (B : backend graph)
    (config : NoveltyConfig) :
  (forall ids s v s',
      sensitivity_analyzer B config ids s = (Ok v, s') ->
      exists gr g,
        forward_labels B false (weights s) ids = Ok gr /\
        backward B gr = Ok g /\
        v = py_sum (fisher_items config
                      (map (with_grad g) (named_parameters s))) /\
        Forall (fun p => p_grad p = None) (named_parameters s')) /\
  (forall (N : nat) (texts : list string) ids s,
      List.length texts = N ->
      fst (sensitivity_analyzer B config ids
             (evaluations B config texts s)) =
      fst (sensitivity_analyzer B config ids s)) /\
  (forall (N : nat) (texts : list string) ref s r0 s0 rN sN,
      List.length texts = N ->
      compute B config ref s = (Ok r0, s0) ->
      compute B config ref (evaluations B config texts s) = (Ok rN, sN) ->
      fisher rN = fisher r0).
Proof.
  split; [ | split ].
  - intros ids s v s' H. apply sensitivity_analyzer_inv in H.
    destruct H as (gr & g & Hf & Hb & -> & ->).
    exists gr, g. rewrite after_backward_parameters.
    repeat split; try assumption. apply zero_grad_cleared.
  - intros N texts ids s _.
    rewrite !sensitivity_analyzer_outcome, evaluations_weights.
    reflexivity.
  - intros N texts ref s r0 s0 rN sN _ H0 HN.
    apply compute_inv in H0.
    destruct H0 as (ids & _ & gr & g & Ht & _ & Hf & Hb & _ & Hfi & _).
    apply compute_inv in HN.
    destruct HN as (ids' & _ & gr' & g' & Ht' & _ & Hf' & Hb' & _ & Hfi' & _).
    rewrite Ht in Ht'. injection Ht' as <-.
    rewrite evaluations_weights, Hf in Hf'. injection Hf' as <-.
    rewrite Hb in Hb'. injection Hb' as <-.
    rewrite Hfi, Hfi', !after_backward_parameters, !fisher_items_with_grad.
    change (map (fun p => (p_name p, p_data p)) (named_parameters ?x))
      with (weights x).
    rewrite evaluations_weights. reflexivity.
Qed.

(** C8 at the small backend, whose model starts with stale gradients in
    both accumulators: the trace on the reference input is 1*1 + 2*2 = 5
    before and after three evaluations, one of which raises. *)
Lemma no_gradient_leakage_witness :
  fst (sensitivity_analyzer toy_backend default_config [97%nat] toy_model)
    = Ok 5 /\
  fst (sensitivity_analyzer toy_backend default_config [97%nat]
         (evaluations toy_backend default_config
            ["a"%string; ""%string; "bc"%string] toy_model))
    = Ok 5.
Proof.
  assert (H0 : fst (sensitivity_analyzer toy_backend default_config
                      [97%nat] toy_model) = Ok 5).
  { rewrite (sensitivity_analyzer_Ok toy_backend default_config [97%nat]
               toy_model tt toy_grad eq_refl eq_refl).
    cbn [fst]. f_equal. rewrite py_sum_tsum. simpl. lra. }
  split; [exact H0 | ].
  destruct (no_gradient_leakage toy_backend default_config)
    as (_ & Hstage & _).
  rewrite (Hstage 3%nat ["a"%string; ""%string; "bc"%string] [97%nat]
             toy_model eq_refl).
  exact H0.
Defined.

(** ** C10: the mode the model is left in *)

(** Step 2 leaves the model in evaluation mode, whatever its outcome. *)
Lemma sensitivity_analyzer_mode {graph : Type} (B : backend graph)
    config ids s :
  training (snd (sensitivity_analyzer B config ids s)) = false.
Proof.
  unfold sensitivity_analyzer, bind, modify, get, lift, ret. simpl.
  destruct (forward_labels B false (weights (model_eval s)) ids)
    as [gr | e]; [ | reflexivity ].
  destruct (backward B gr) as [g | e]; reflexivity.
Qed.

(** C10, as stated, fails: the empty text has no token, step 1 raises
    [IndexError] at the final-position slice, [model.eval()] is never
    reached and the model, in training mode before the call, is in
    training mode after it. *)
Lemma compute_raise_keeps_training_mode :
  training toy_model = true /\
  compute toy_backend default_config "" toy_model
    = (Raise IndexError, toy_model) /\
  training (snd (compute toy_backend default_config "" toy_model)) = true.
Proof.
  assert (H : compute toy_backend default_config "" toy_model
              = (Raise IndexError, toy_model)) by reflexivity.
  split; [reflexivity | ]. split; [exact H | ].
  rewrite H. reflexivity.
Qed.

(** C10, amended. Every call that gets as far as step 2 (it found a
    parameter, the tokenizer returned and step 1 returned) leaves the
    shared model object in evaluation mode, whether the call then returns
    or raises, and whatever mode the caller had it in; in particular every
    call that returns does.  A call that raises before step 2 (no
    parameter, the tokenizer raised, or step 1 raised) leaves the model
    object, mode included, exactly as it was.  No call restores the
    previous mode. *)
Theorem compute_leaves_eval_mode {graph : Type} (B : backend graph)
    (config : NoveltyConfig) (t : string) (s : model_state) :
  (forall r s', compute B config t s = (Ok r, s') -> training s' = false) /\
  (forall ids v,
      named_parameters s <> [] ->
      tokenizer B t = Ok ids ->
      fst (distribution_analyzer B ids s) = Ok v ->
      training (snd (compute B config t s)) = false) /\
  (training (snd (compute B config t s)) = false \/
   exists e, compute B config t s = (Raise e, s)) /\
  (named_parameters s = [] ->
   compute B config t s = (Raise StopIteration, s)) /\
  (forall e,
      named_parameters s <> [] ->
      tokenizer B t = Raise e ->
      compute B config t s = (Raise e, s)) /\
  (forall ids e,
      named_parameters s <> [] ->
      tokenizer B t = Ok ids ->
      fst (distribution_analyzer B ids s) = Raise e ->
      compute B config t s = (Raise e, s)).
Proof.
  assert (Hcases :
            training (snd (compute B config t s)) = false \/
            (exists e, compute B config t s = (Raise e, s) /\
                       (named_parameters s = [] \/
                        tokenizer B t = Raise e \/
                        exists ids, tokenizer B t = Ok ids /\
                          fst (distribution_analyzer B ids s) = Raise e))).
  { unfold compute, bind, get, lift, next_parameter.
    destruct (named_parameters s) as [ | p ps] eqn:Eps.
    { right. exists StopIteration. split; [reflexivity | left; reflexivity]. }
    destruct (tokenizer B t) as [ids | e] eqn:Et.
    2: { right. exists e. split; [reflexivity | right; left; reflexivity]. }
    pose proof (distribution_analyzer_state B ids s) as Hst.
    destruct (distribution_analyzer B ids s) as [[v | e] s1] eqn:Ed;
      simpl in Hst; subst s1.
    2: { right. exists e. split; [reflexivity | ].
         right. right. exists ids.
         split; [reflexivity | rewrite Ed; reflexivity]. }
    left.
    pose proof (sensitivity_analyzer_mode B config ids s) as Hm.
    destruct (sensitivity_analyzer B config ids s) as [[f | e] s2];
      simpl in Hm; [ | exact Hm ].
    destruct (novelty_functional config v f (List.length ids));
      exact Hm. }
  split; [ | split; [ | split; [ | split; [ | split ] ] ] ].
  - intros r s' H. destruct Hcases as [Hm | (e & He & _)].
    + rewrite H in Hm. exact Hm.
    + rewrite H in He. discriminate He.
  - intros ids v Hp Ht Hd. destruct Hcases as [Hm | (e & _ & Hwhy)];
      [exact Hm | ].
    destruct Hwhy as [Hnil | [Htok | (ids' & Htok & Hda)]].
    + contradiction.
    + rewrite Ht in Htok. discriminate Htok.
    + rewrite Ht in Htok. injection Htok as <-.
      rewrite Hd in Hda. discriminate Hda.
  - destruct Hcases as [Hm | (e & He & _)].
    + left. exact Hm.
    + right. exists e. exact He.
  - intros Hnil. unfold compute, bind, get, lift, next_parameter.
    rewrite Hnil. reflexivity.
  - intros e Hp Ht. unfold compute, bind, get, lift, next_parameter.
    destruct (named_parameters s) as [ | p ps]; [contradiction | ].
    rewrite Ht. reflexivity.
  - intros ids e Hp Ht Hd.
    assert (Hda : distribution_analyzer B ids s = (Raise e, s)).
    { pose proof (distribution_analyzer_state B ids s) as Hst.
      destruct (distribution_analyzer B ids s) as [o s1].
      simpl in Hd, Hst. subst o s1. reflexivity. }
    unfold compute.
    rewrite (bind_step get _ s s s) by reflexivity.
    destruct (named_parameters s) as [ | p ps] eqn:Eps; [contradiction | ].
    rewrite (bind_step (lift (next_parameter s)) _ s p s)
      by (unfold lift, next_parameter; rewrite Eps; reflexivity).
    rewrite (bind_step (lift (tokenizer B t)) _ s ids s)
      by (unfold lift; rewrite Ht; reflexivity).
    apply bind_raise. exact Hda.
Qed.

(** C10 amended, at the small backend in training mode: a call that
    returns leaves it in evaluation mode; the call on the empty text
    raises in step 1 and leaves it as it was. *)
Lemma compute_leaves_eval_mode_witness :
  training toy_model = true /\
  (exists r s',
      compute toy_backend default_config "a" toy_model = (Ok r, s') /\
      training s' = false) /\
  compute toy_backend default_config "" toy_model
    = (Raise IndexError, toy_model).
Proof.
  split; [reflexivity | ]. split.
  - destruct toy_compute_returns as (r & s' & H).
    exists r, s'. split; [exact H | ].
    destruct (compute_leaves_eval_mode toy_backend default_config "a"
                toy_model) as (Hret & _).
    exact (Hret r s' H).
  - destruct (compute_leaves_eval_mode toy_backend default_config ""
                toy_model) as (_ & _ & _ & _ & _ & Hstep1).
    apply (Hstep1 [] IndexError); [discriminate | reflexivity | reflexivity].
Defined.

(** ** C7: which parameters enter the trace *)

Lemma prefixb_spec (t n : string) :
  prefixb t n = true <-> exists b, n = (t ++ b)%string.
Proof.
  revert n. induction t as [ | c t IH]; intros n; simpl.
  - split; [intros _; exists n; reflexivity | reflexivity].
  - destruct n as [ | d n].
    + split; [discriminate | intros (b & Hb); discriminate Hb].
    + rewrite andb_true_iff, Ascii.eqb_eq, IH. split.
      * intros (-> & b & ->). exists b. reflexivity.
      * intros (b & Hb). injection Hb as -> ->.
        split; [reflexivity | exists b; reflexivity].
Qed.

(** [t in n] holds exactly when [t] is a literal substring of [n]. *)
Lemma str_in_spec (t n : string) :
  str_in t n = true <-> exists a b, n = (a ++ t ++ b)%string.
Proof.
  induction n as [ | c n IH]; simpl.
  - rewrite orb_false_r, prefixb_spec. split.
    + intros (b & Hb). exists ""%string, b. exact Hb.
    + intros (a & b & Hab). destruct a; [ | discriminate Hab].
      exists b. exact Hab.
  - rewrite orb_true_iff, prefixb_spec, IH. split.
    + intros [(b & Hb) | (a & b & Hab)].
      * exists ""%string, b. exact Hb.
      * exists (String c a), b. simpl. rewrite Hab. reflexivity.
    + intros (a & b & Hab). destruct a as [ | d a].
      * left. exists b. exact Hab.
      * right. simpl in Hab. injection Hab as _ Hab.
        exists a, b. exact Hab.
Qed.

Lemma selected_spec config (n : string) :
  selected config n = true <->
  exists t, In t (target_layers config) /\
            exists a b, n = (a ++ t ++ b)%string.
Proof.
  unfold selected, any. rewrite existsb_exists.
  split; intros (t & Hin & H); exists t; (split; [exact Hin | ]);
    apply str_in_spec; exact H.
Qed.

Lemma selected_same_entries c1 c2 (n : string) :
  (forall t, In t (target_layers c1) <-> In t (target_layers c2)) ->
  selected c1 n = selected c2 n.
Proof.
  intros Hsame.
  destruct (selected c1 n) eqn:E1, (selected c2 n) eqn:E2;
    try reflexivity.
  - apply selected_spec in E1. destruct E1 as (t & Hin & H).
    assert (E : selected c2 n = true).
    { apply selected_spec. exists t. split; [apply Hsame; exact Hin | exact H]. }
    congruence.
  - apply selected_spec in E2. destruct E2 as (t & Hin & H).
    assert (E : selected c1 n = true).
    { apply selected_spec. exists t. split; [apply Hsame; exact Hin | exact H]. }
    congruence.
Qed.

Lemma fisher_items_same_entries c1 c2 (ps : list parameter) :
  (forall t, In t (target_layers c1) <-> In t (target_layers c2)) ->
  fisher_items c1 ps = fisher_items c2 ps.
Proof.
  intros Hsame. unfold fisher_items.
  induction ps as [ | p ps IH]; simpl.
  - reflexivity.
  - rewrite IH, (selected_same_entries c1 c2 (p_name p) Hsame).
    reflexivity.
Qed.

Lemma py_sum_contributions config g (ps : list parameter) :
  py_sum (fisher_items config (map (with_grad g) ps)) =
  tsum (map (contribution config g) ps).
Proof.
  rewrite py_sum_tsum. unfold fisher_items, contribution.
  induction ps as [ | p ps IH]; simpl.
  - reflexivity.
  - rewrite tsum_app, IH.
    destruct (selected config (p_name p)); [ | simpl; lra ].
    destruct (g (p_name p)) as [gv | ]; simpl; lra.
Qed.

(** C7. A parameter name passes the selection exactly when it contains
    some entry of [target_layers] as a literal substring.  Whenever the
    backward pass returns, step 2 returns (it raises nothing) the sum over
    all named parameters of: the sum of the squares of the parameter's
    gradient if the parameter is selected and has a gradient, and zero if
    it is not selected or its gradient is absent.  Two configurations
    whose [target_layers] have the same entries, in any order and with any
    repetition, give the same step 2. *)
Theorem fisher_trace_selection {graph : Type} (B : backend graph)
    (config : NoveltyConfig) :
  (forall n,
      selected config n = true <->
      exists t, In t (target_layers config) /\
                exists a b, n = (a ++ t ++ b)%string) /\
  (forall ids s gr g,
      forward_labels B false (weights s) ids = Ok gr ->
      backward B gr = Ok g ->
      fst (sensitivity_analyzer B config ids s) =
      Ok (tsum (map (fun p =>
                       if selected config (p_name p) then
                         match g (p_name p) with
                         | Some gv => tsum (pow2 gv)
                         | None => 0
                         end
                       else 0)
                    (named_parameters s)))) /\
  (forall config',
      (forall t, In t (target_layers config) <->
                 In t (target_layers config')) ->
      forall ids s,
        sensitivity_analyzer B config ids s =
        sensitivity_analyzer B config' ids s).
Proof.
  split; [ | split ].
  - apply selected_spec.
  - intros ids s gr g Hf Hb.
    rewrite (sensitivity_analyzer_Ok B config ids s gr g Hf Hb).
    cbn [fst]. rewrite after_backward_parameters, py_sum_contributions.
    reflexivity.
  - intros config' Hsame ids s.
    unfold sensitivity_analyzer, bind, modify, get, lift, ret.
    destruct (forward_labels B (training (model_eval s))
                (weights (model_eval s)) ids) as [gr | e];
      [ | reflexivity ].
    destruct (backward B gr) as [g | e]; [ | reflexivity ].
    rewrite (fisher_items_same_entries config config' _ Hsame).
    reflexivity.
Qed.

(** C7 at the small backend: [wte.weight] is selected and has no gradient,
    [lm_head.weight] is selected and has gradient (1, 2); the trace is
    0 + 5 under both configurations. *)
Lemma fisher_trace_selection_witness :
  fst (sensitivity_analyzer toy_backend config_ab [97%nat] toy_model)
    = Ok (0 + (1 * 1 + (2 * 2 + 0) + 0)) /\
  sensitivity_analyzer toy_backend config_ab [97%nat] toy_model =
  sensitivity_analyzer toy_backend config_bab [97%nat] toy_model.
Proof.
  destruct (fisher_trace_selection toy_backend config_ab)
    as (_ & Hsum & Hsame).
  split.
  - exact (Hsum [97%nat] toy_model tt toy_grad eq_refl eq_refl).
  - apply (Hsame config_bab). intros t. simpl. tauto.
Defined.

(** ** C3: an input with no token *)

(** C3, as stated, fails: on the empty text the tokenizer returns no
    token, the evaluation goes on into step 1, and what is raised there
    is the [IndexError] of the final-position slice, not
    [InvalidInputError]. *)
Lemma compute_zero_tokens_not_InvalidInputError :
  tokenizer toy_backend "" = Ok [] /\
  distribution_analyzer toy_backend [] toy_model
    = (Raise IndexError, toy_model) /\
  compute toy_backend default_config "" toy_model
    = (Raise IndexError, toy_model) /\
  IndexError <> InvalidInputError.
Proof.
  repeat split; try reflexivity. discriminate.
Qed.

Lemma process_texts_app {graph : Type} (B : backend graph) config
    (l1 l2 : list string) (st : sim_state) :
  process_texts B config (l1 ++ l2) st =
  bind (process_texts B config l1) (fun _ => process_texts B config l2) st.
Proof.
  revert st. induction l1 as [ | t l1 IH]; intros st.
  - reflexivity.
  - change (process_texts B config ((t :: l1) ++ l2) st)
      with (bind (process_text B config t)
              (fun _ => process_texts B config (l1 ++ l2)) st).
    change (process_texts B config (t :: l1))
      with (bind (process_text B config t)
              (fun _ => process_texts B config l1)).
    unfold bind.
    destruct (process_text B config t st) as [[u | e] st'].
    + apply IH.
    + reflexivity.
Qed.

Lemma process_text_raise {graph : Type} (B : backend graph) config t st e :
  compute B config t (model st) = (Raise e, model st) ->
  forall rest, process_texts B config (t :: rest) st = (Raise e, st).
Proof.
  intros Hc rest. simpl. unfold bind, process_text, bind, on_model.
  rewrite Hc. destruct st; reflexivity.
Qed.

(** C3, amended. There is no check for an empty token sequence.  For a
    text whose tokenization has zero tokens, and a model that gives one
    row of logits per token, the evaluation enters step 1 and raises
    there: the error of the forward pass if it raises on the empty
    sequence, the [IndexError] of the final-position slice otherwise.  The
    model object is left as it was.  The processing loop does not skip
    the text: it stops at it with the same error, and the rows and
    metrics collected for the texts before it are unchanged. *)
Theorem compute_zero_tokens_raises {graph : Type} (B : backend graph)
    (config : NoveltyConfig) (t : string) (s : model_state) :
  tokenizer B t = Ok [] ->
  named_parameters s <> [] ->
  (forall rows, forward B (training s) (weights s) [] = Ok rows ->
                rows = []) ->
  exists e,
    (forward B (training s) (weights s) [] = Raise e \/
     forward B (training s) (weights s) [] = Ok [] /\ e = IndexError) /\
    distribution_analyzer B [] s = (Raise e, s) /\
    compute B config t s = (Raise e, s) /\
    forall pre post st st1,
      process_texts B config pre st = (Ok tt, st1) ->
      model st1 = s ->
      process_texts B config (pre ++ t :: post) st = (Raise e, st1).
Proof.
  intros Ht Hp Hrows.
  assert (Hda : exists e,
             (forward B (training s) (weights s) [] = Raise e \/
              forward B (training s) (weights s) [] = Ok [] /\
              e = IndexError) /\
             distribution_analyzer B [] s = (Raise e, s)).
  { unfold distribution_analyzer, bind, get, lift.
    destruct (forward B (training s) (weights s) []) as [rows | e] eqn:Hf.
    - rewrite (Hrows rows eq_refl). exists IndexError.
      split; [right; split; reflexivity | reflexivity].
    - exists e. split; [left; reflexivity | reflexivity]. }
  destruct Hda as (e & Hwhy & Hda). exists e.
  assert (Hc : compute B config t s = (Raise e, s)).
  { unfold compute.
    rewrite (bind_step get _ s s s) by reflexivity.
    destruct (named_parameters s) as [ | p ps] eqn:Eps; [contradiction | ].
    rewrite (bind_step (lift (next_parameter s)) _ s p s)
      by (unfold lift, next_parameter; rewrite Eps; reflexivity).
    rewrite (bind_step (lift (tokenizer B t)) _ s [] s)
      by (unfold lift; rewrite Ht; reflexivity).
    apply bind_raise. exact Hda. }
  split; [exact Hwhy | ]. split; [exact Hda | ]. split; [exact Hc | ].
  intros pre post st st1 Hpre Hm.
  rewrite process_texts_app. rewrite (bind_step _ _ _ _ _ Hpre).
  apply process_text_raise. rewrite Hm. exact Hc.
Qed.

(** C3 amended, at the small backend: one text evaluated, then the empty
    text.  The loop stops there with [IndexError], holding the one row it
    had. *)
Lemma compute_zero_tokens_raises_witness :
  exists st1,
    process_texts toy_backend default_config ["a"%string] toy_start
      = (Ok tt, st1) /\
    List.length (data_log st1) = 1%nat /\
    process_texts toy_backend default_config
      (["a"%string] ++ ""%string :: ["b"%string]) toy_start
      = (Raise IndexError, st1).
Proof.
  destruct toy_compute_state as [r Hr].
  set (s1 := zero_grad (after_backward toy_grad toy_model)) in *.
  set (st1 := log_result "a" (is_outlier default_config r) r
                {| model := s1; data_log := data_log toy_start;
                   metrics := metrics toy_start |}).
  assert (Hpre : process_texts toy_backend default_config ["a"%string]
                   toy_start = (Ok tt, st1)).
  { unfold process_texts, process_text, bind, on_model, modify, ret.
    cbn [model toy_start]. rewrite Hr. reflexivity. }
  exists st1. split; [exact Hpre | ]. split; [reflexivity | ].
  destruct (compute_zero_tokens_raises toy_backend default_config "" s1)
    as (e & Hwhy & _ & _ & Hloop).
  - reflexivity.
  - discriminate.
  - intros rows H. injection H as <-. reflexivity.
  - destruct Hwhy as [Hf | [_ ->]]; [discriminate Hf | ].
    apply (Hloop ["a"%string] ["b"%string] toy_start st1 Hpre).
    reflexivity.
Defined.

(** ** Further properties of the engine *)

Lemma novelty_functional_raise config k f n e :
  novelty_functional config k f n = Raise e ->
  e = ZeroDivisionError /\
  (attention_normalizer config = 0 \/
   INR n / attention_normalizer config + eps config = 0).
Proof.
  unfold novelty_functional, py_truediv.
  destruct (Req_dec_T (attention_normalizer config) 0) as [Hn | Hn].
  - intros H. inversion H. split; [reflexivity | left; exact Hn].
  - destruct (Req_dec_T (INR n / attention_normalizer config + eps config) 0)
      as [Hd | Hd]; intros H; inversion H.
    split; [reflexivity | right; exact Hd].
Qed.

(** X1. Where an exception of the evaluation comes from: the model has no
    parameter ([StopIteration]); or the tokenizer, the forward pass, the
    forward pass with labels or the backward pass raised it; or the
    forward pass returned no position ([IndexError]); or a divisor of
    line 62 is zero ([ZeroDivisionError]).  The evaluation raises nothing
    else and catches nothing. *)
Theorem compute_raise_sources {graph : Type} (B : backend graph)
    (config : NoveltyConfig) (t : string) (s s' : model_state) (e : exn) :
  compute B config t s = (Raise e, s') ->
  (named_parameters s = [] /\ e = StopIteration) \/
  tokenizer B t = Raise e \/
  exists ids,
    tokenizer B t = Ok ids /\
    (forward B (training s) (weights s) ids = Raise e \/
     (forward B (training s) (weights s) ids = Ok [] /\ e = IndexError) \/
     forward_labels B false (weights s) ids = Raise e \/
     (exists gr, forward_labels B false (weights s) ids = Ok gr /\
                 backward B gr = Raise e) \/
     (e = ZeroDivisionError /\
      (attention_normalizer config = 0 \/
       INR (List.length ids) / attention_normalizer config + eps config
         = 0))).
Proof.
  unfold compute, bind, get, lift, next_parameter.
  destruct (named_parameters s) as [ | p ps] eqn:Eps.
  { intros H. inversion H; subst. left. split; reflexivity. }
  destruct (tokenizer B t) as [ids | e0] eqn:Et.
  2: { intros H. inversion H; subst. right. left. reflexivity. }
  intros H. right. right. exists ids. split; [reflexivity | ].
  unfold distribution_analyzer, bind, get, lift, ret in H.
  destruct (forward B (training s) (weights s) ids) as [rows | e0] eqn:Ef.
  2: { inversion H; subst. left. reflexivity. }
  destruct rows as [ | r rows'].
  { simpl in H. inversion H; subst. right. left. split; reflexivity. }
  simpl in H.
  unfold sensitivity_analyzer, bind, modify, get, lift, ret in H.
  simpl in H. rewrite weights_model_eval in H.
  destruct (forward_labels B false (weights s) ids) as [gr | e0] eqn:El.
  2: { inversion H; subst. right. right. left. reflexivity. }
  destruct (backward B gr) as [g | e0] eqn:Eb.
  2: { inversion H; subst. right. right. right. left.
       exists gr. split; [reflexivity | exact Eb]. }
  match type of H with
  | context [novelty_functional ?c ?k ?f ?n] =>
      destruct (novelty_functional c k f n) as [v | e0] eqn:En
  end.
  { discriminate H. }
  inversion H; subst.
  right. right. right. right.
  apply novelty_functional_raise in En. exact En.
Qed.

(** X1 at the small backend: the empty text, no position, [IndexError]. *)
Lemma compute_raise_sources_witness :
  compute toy_backend default_config "" toy_model
    = (Raise IndexError, toy_model) /\
  exists ids,
    tokenizer toy_backend "" = Ok ids /\
    forward toy_backend (training toy_model) (weights toy_model) ids
      = Ok [].
Proof.
  assert (H : compute toy_backend default_config "" toy_model
              = (Raise IndexError, toy_model)) by reflexivity.
  split; [exact H | ].
  destruct (compute_raise_sources toy_backend default_config "" toy_model
              toy_model IndexError H)
    as [[Hnil _] | [Htok | (ids & Htok & Hwhy)]].
  - discriminate Hnil.
  - discriminate Htok.
  - exists ids. split; [exact Htok | ].
    injection Htok as <-. reflexivity.
Defined.

(** X2. With [attention_normalizer = 0] no evaluation returns: when every
    collaborator returns and the sequence has a final position, both
    passes run and line 62 then raises [ZeroDivisionError], leaving the
    model in evaluation mode with its accumulators cleared. *)
Theorem compute_zero_normalizer {graph : Type} (B : backend graph)
    (config : NoveltyConfig) (t : string) (s : model_state)
    (ids : list nat) (rows : list (list R)) (gr : graph)
    (g : string -> option tensor) :
  attention_normalizer config = 0 ->
  named_parameters s <> [] ->
  tokenizer B t = Ok ids ->
  forward B (training s) (weights s) ids = Ok rows ->
  rows <> [] ->
  forward_labels B false (weights s) ids = Ok gr ->
  backward B gr = Ok g ->
  compute B config t s =
    (Raise ZeroDivisionError, zero_grad (after_backward g s)) /\
  training (zero_grad (after_backward g s)) = false /\
  Forall (fun p => p_grad p = None)
         (named_parameters (zero_grad (after_backward g s))).
Proof.
  intros Hz Hp Ht Hf Hr Hl Hb.
  split; [ | split; [reflexivity | apply zero_grad_cleared] ].
  destruct (final_position rows) as [logits | e] eqn:Hlast.
  2: { destruct rows; [contradiction | discriminate]. }
  unfold compute.
  rewrite (bind_step get _ s s s) by reflexivity.
  destruct (named_parameters s) as [ | p ps] eqn:Eps; [contradiction | ].
  rewrite (bind_step (lift (next_parameter s)) _ s p s)
    by (unfold lift, next_parameter; rewrite Eps; reflexivity).
  rewrite (bind_step (lift (tokenizer B t)) _ s ids s)
    by (unfold lift; rewrite Ht; reflexivity).
  rewrite (bind_step _ _ _ _ _ (distribution_analyzer_Ok _ _ _ _ _ Hf Hlast)).
  rewrite (bind_step _ _ _ _ _ (sensitivity_analyzer_Ok _ config _ _ _ _ Hl Hb)).
  unfold bind, lift, novelty_functional, py_truediv.
  destruct (Req_dec_T (attention_normalizer config) 0) as [_ | Hn];
    [reflexivity | contradiction].
Qed.

(** X2 at the small backend. *)
Lemma compute_zero_normalizer_witness :
  compute toy_backend config_zero_normalizer "a" toy_model =
    (Raise ZeroDivisionError, zero_grad (after_backward toy_grad toy_model)).
Proof.
  apply (compute_zero_normalizer toy_backend config_zero_normalizer "a"
           toy_model [97%nat] [[0; ln 2]] tt toy_grad);
    try reflexivity; discriminate.
Defined.

(** *** Bounds and invariances of the divergence *)

Lemma exp_le_tsum (x : list R) (a : R) :
  In a x -> exp a <= tsum (map exp x).
Proof.
  induction x as [ | b x IH]; intros Hin; [contradiction | ].
  simpl. destruct Hin as [-> | Hin].
  - assert (0 <= tsum (map exp x)).
    { destruct x as [ | c x']; [simpl; lra | ].
      apply Rlt_le, tsum_exp_pos. discriminate. }
    lra.
  - specialize (IH Hin). pose proof (exp_pos b). lra.
Qed.

Lemma softmax_row_le_1 (x : list R) :
  Forall (fun p => p <= 1) (softmax_row x).
Proof.
  unfold softmax_row. apply Forall_forall. intros p Hin.
  apply in_map_iff in Hin. destruct Hin as (a & <- & Hin).
  assert (HS : 0 < tsum (map exp x)).
  { apply tsum_exp_pos. intros ->. exact Hin. }
  pose proof (exp_le_tsum x a Hin) as Hle.
  apply (Rmult_le_reg_r (tsum (map exp x))); [exact HS | ].
  unfold Rdiv. rewrite Rmult_assoc, Rinv_l by lra. lra.
Qed.

Lemma KL_upper (P : list R) (u : R) (n : nat) :
  Forall (fun p => 0 < p) P -> Forall (fun p => p <= 1) P ->
  List.length P = n ->
  KL P (repeat u n) <= - ln u * tsum P.
Proof.
  intros Hpos. revert n.
  induction Hpos as [ | p P Hp Hpos IH]; intros n Hle Hlen.
  - simpl in Hlen. subst n. simpl. lra.
  - destruct n as [ | n]; [discriminate | ].
    inversion Hle as [ | p' P' Hp1 Hle']; subst.
    simpl in Hlen. injection Hlen as Hlen.
    specialize (IH n Hle' Hlen). simpl.
    assert (Hln : ln p <= 0).
    { destruct (Req_dec p 1) as [-> | Hne].
      - rewrite ln_1. lra.
      - apply Rlt_le. rewrite <- ln_1. apply ln_increasing; lra. }
    assert (p * ln p <= 0) by nra.
    lra.
Qed.

Lemma tsum_softmax_row (x : list R) :
  x <> [] -> tsum (softmax_row x) = 1.
Proof.
  intros Hx. unfold softmax_row. rewrite tsum_map_div.
  pose proof (tsum_exp_pos x Hx). field. lra.
Qed.

(** X3. The divergence step 1 returns lies between 0 and [ln V], [V] the
    size of the vocabulary (the length of the final row of logits). *)
Theorem distribution_analyzer_bounds {graph : Type} (B : backend graph)
    (input_ids : list nat) (s : model_state) (rows : list (list R)) :
  forward B (training s) (weights s) input_ids = Ok rows ->
  rows <> [] ->
  last rows [] <> [] ->
  exists v,
    distribution_analyzer B input_ids s = (Ok v, s) /\
    0 <= v <= ln (INR (List.length (last rows []))).
Proof.
  intros Hf Hr Hx.
  exists (KL_model_reference (last rows [])).
  destruct rows as [ | r rows']; [contradiction | ].
  split.
  - rewrite (distribution_analyzer_Ok B input_ids s (r :: rows')
               [last rows' r] Hf eq_refl).
    rewrite kl_of_logits_direction, last_cons_default. reflexivity.
  - set (x := last (r :: rows') []) in *.
    split; [apply KL_model_reference_nonneg | ].
    unfold KL_model_reference, uniform.
    assert (HV : 0 < INR (List.length x)).
    { apply lt_0_INR. destruct x; [contradiction | simpl; lia]. }
    pose proof (KL_upper (softmax_row x) (/ INR (List.length x))
                  (List.length x) (softmax_row_pos x) (softmax_row_le_1 x))
      as H.
    rewrite (tsum_softmax_row x Hx), (ln_Rinv _ HV) in H.
    unfold softmax_row in H at 1. rewrite length_map in H.
    specialize (H eq_refl). lra.
Qed.

(** X3 at the small backend: two words, so at most [ln 2]. *)
Lemma distribution_analyzer_bounds_witness :
  exists v,
    distribution_analyzer toy_backend [97%nat] toy_model
      = (Ok v, toy_model) /\
    0 <= v <= ln (INR 2).
Proof.
  apply (distribution_analyzer_bounds toy_backend [97%nat] toy_model
           [[0; ln 2]]).
  - reflexivity.
  - discriminate.
  - discriminate.
Defined.

Lemma tsum_exp_shift (c : R) (x : list R) :
  tsum (map exp (map (fun a => a + c) x)) = exp c * tsum (map exp x).
Proof.
  induction x as [ | a x IH]; simpl.
  - lra.
  - rewrite IH, exp_plus. lra.
Qed.

Lemma softmax_row_shift (c : R) (x : list R) :
  softmax_row (map (fun a => a + c) x) = softmax_row x.
Proof.
  unfold softmax_row. rewrite tsum_exp_shift, map_map.
  destruct x as [ | b x'] eqn:Ex; [reflexivity | ]. rewrite <- Ex.
  assert (HS : 0 < tsum (map exp x)).
  { apply tsum_exp_pos. rewrite Ex. discriminate. }
  apply map_ext. intros a. rewrite exp_plus.
  pose proof (exp_pos c). field. lra.
Qed.

Lemma kl_of_logits_shift (c : R) (x : list R) :
  kl_of_logits [map (fun a => a + c) x] = kl_of_logits [x].
Proof.
  rewrite !kl_of_logits_direction. unfold KL_model_reference.
  rewrite softmax_row_shift, length_map. reflexivity.
Qed.

(** X4. Step 1 sees the logits up to an additive constant only: two
    forward passes whose final rows differ by the same constant in every
    entry give the same divergence. *)
Theorem distribution_analyzer_shift_invariant {graph1 graph2 : Type}
    (B1 : backend graph1) (B2 : backend graph2)
    (ids1 ids2 : list nat) (s1 s2 : model_state)
    (rows1 rows2 : list (list R)) (c : R) :
  forward B1 (training s1) (weights s1) ids1 = Ok rows1 ->
  forward B2 (training s2) (weights s2) ids2 = Ok rows2 ->
  rows1 <> [] -> rows2 <> [] ->
  last rows2 [] = map (fun a => a + c) (last rows1 []) ->
  fst (distribution_analyzer B1 ids1 s1) =
  fst (distribution_analyzer B2 ids2 s2).
Proof.
  intros Hf1 Hf2 Hr1 Hr2 Hshift.
  destruct rows1 as [ | r1 rows1']; [contradiction | ].
  destruct rows2 as [ | r2 rows2']; [contradiction | ].
  rewrite (distribution_analyzer_Ok B1 ids1 s1 _ [last rows1' r1] Hf1 eq_refl).
  rewrite (distribution_analyzer_Ok B2 ids2 s2 _ [last rows2' r2] Hf2 eq_refl).
  rewrite !last_cons_default in Hshift.
  cbn [fst]. rewrite Hshift, kl_of_logits_shift. reflexivity.
Qed.

(** X4 at the small backend and its copy with logits raised by 1. *)
Lemma distribution_analyzer_shift_invariant_witness :
  fst (distribution_analyzer toy_backend [97%nat] toy_model) =
  fst (distribution_analyzer toy_backend_shifted [97%nat] toy_model).
Proof.
  apply (distribution_analyzer_shift_invariant toy_backend
           toy_backend_shifted [97%nat] [97%nat] toy_model toy_model
           [[0; ln 2]] [[0 + 1; ln 2 + 1]] 1);
    try reflexivity; discriminate.
Defined.







Lemma unselected_contributions config g (ps : list parameter) :
  (forall p, In p ps -> selected config (p_name p) = false) ->
  tsum (map (contribution config g) ps) = 0.
Proof.
  induction ps as [ | p ps IH]; intros H; simpl.
  - reflexivity.
  - rewrite IH by (intros q Hq; apply H; right; exact Hq).
    unfold contribution. rewrite (H p (or_introl eq_refl)). lra.
Qed.

(** X6. When no parameter name contains an entry of [target_layers] (for
    one, when [target_layers] is empty), every result the evaluation
    returns has [fisher = 0] and [novelty = 0]. *)
Theorem compute_no_selected_parameter {graph : Type} (B : backend graph)
    (config : NoveltyConfig) (t : string) (s s' : model_state)
    (r : EvaluationResult) :
  compute B config t s = (Ok r, s') ->
  (forall p, In p (named_parameters s) ->
             selected config (p_name p) = false) ->
  fisher r = 0 /\ novelty r = 0.
Proof.
  intros H Hsel. apply compute_inv in H.
  destruct H as (ids & logits & gr & g & _ & _ & _ & _ & _ & Hfi & _ &
                 Hnov & _).
  assert (Hf : fisher r = 0).
  { rewrite Hfi, after_backward_parameters, py_sum_contributions.
    apply unselected_contributions. exact Hsel. }
  split; [exact Hf | ].
  apply novelty_functional_Ok in Hnov. rewrite Hnov, Hf.
  unfold Rdiv. ring.
Qed.

(** X6 at the small backend, with a target layer that names nothing. *)
Lemma compute_no_selected_parameter_witness :
  exists r s',
    compute toy_backend config_unmatched "a" toy_model = (Ok r, s') /\
    fisher r = 0 /\ novelty r = 0.
Proof.
  destruct (compute_returns toy_backend config_unmatched "a"
              toy_model [97%nat] [[0; ln 2]] tt toy_grad) as [r Hr];
    try reflexivity; try discriminate; try (simpl; lra).
  exists r. eexists. split; [exact Hr | ].
  apply (compute_no_selected_parameter toy_backend config_unmatched "a"
           toy_model _ r Hr).
  intros p [<- | [<- | []]]; reflexivity.
Defined.

(** *** Repeating an evaluation *)

Lemma weights_after_backward g s : weights (after_backward g s) = weights s.
Proof.
  unfold after_backward.
  rewrite weights_store_grads, weights_zero_grad. reflexivity.
Qed.

Lemma zero_grad_after_backward g s :
  zero_grad (after_backward g s) =
  {| training := false;
     named_parameters := map clear_grad (named_parameters s) |}.
Proof.
  unfold zero_grad, after_backward, store_grads, model_eval. simpl.
  f_equal. rewrite !map_map. apply map_ext. intros p. reflexivity.
Qed.

Lemma novelty_functional_Ok_divisors config k f n v :
  novelty_functional config k f n = Ok v ->
  attention_normalizer config <> 0 /\
  INR n / attention_normalizer config + eps config <> 0.
Proof.
  unfold novelty_functional.
  destruct (py_truediv (INR n) (attention_normalizer config)) as [q | e] eqn:E;
    [ | discriminate ].
  apply py_truediv_Ok in E. destruct E as [Hn ->].
  intros H. apply py_truediv_Ok in H. destruct H as [Hd _].
  split; assumption.
Qed.

Lemma result_ext (r1 r2 : EvaluationResult) :
  novelty r1 = novelty r2 -> kl r1 = kl r2 -> fisher r1 = fisher r2 ->
  tokens r1 = tokens r2 -> r1 = r2.
Proof.
  destruct r1, r2. simpl. intros -> -> -> ->. reflexivity.
Qed.

(** X7. An evaluation of a model in evaluation mode can be repeated: if it
    returns a result, the same call on the model as it left it returns the
    same result and leaves the model as it is. *)
Theorem compute_repeatable {graph : Type} (B : backend graph)
    (config : NoveltyConfig) (t : string) (s s1 : model_state)
    (r : EvaluationResult) :
  training s = false ->
  compute B config t s = (Ok r, s1) ->
  compute B config t s1 = (Ok r, s1).
Proof.
  intros Hmode H.
  assert (Hinv := H). apply compute_inv in Hinv.
  destruct Hinv as (ids & logits & gr & g & Ht & (rows & Hf & Hl) & Hfl &
                    Hb & Hkl & Hfi & Htok & Hnov & Hs1).
  assert (Hw : weights s1 = weights s).
  { rewrite Hs1, weights_zero_grad. apply weights_after_backward. }
  assert (Hm : training s1 = training s).
  { rewrite Hs1, Hmode. reflexivity. }
  assert (Hp : named_parameters s1 <> []).
  { intros Hnil. unfold weights in Hw. rewrite Hnil in Hw. simpl in Hw.
    symmetry in Hw. apply map_eq_nil in Hw.
    unfold compute, bind, get, lift, next_parameter in H.
    rewrite Hw in H. discriminate H. }
  assert (Hfix : zero_grad (after_backward g s1) = s1).
  { rewrite zero_grad_after_backward. rewrite Hs1 at 2.
    rewrite zero_grad_after_backward. f_equal.
    rewrite Hs1, zero_grad_after_backward. simpl.
    rewrite map_map. apply map_ext. intros p. reflexivity. }
  destruct (novelty_functional_Ok_divisors _ _ _ _ _ Hnov) as [Hn Hd].
  rewrite Htok in Hd.
  destruct (compute_returns B config t s1 ids rows gr g) as [r' Hr'];
    try assumption.
  - rewrite Hm, Hw. exact Hf.
  - intros ->. discriminate Hl.
  - rewrite Hw. exact Hfl.
  - rewrite Hfix in Hr'. rewrite Hr'. f_equal. f_equal.
    apply compute_inv in Hr'.
    destruct Hr' as (ids' & logits' & gr' & g' & Ht' & (rows' & Hf' & Hl') &
                     Hfl' & Hb' & Hkl' & Hfi' & Htok' & Hnov' & _).
    rewrite Ht in Ht'. injection Ht' as <-.
    rewrite Hm, Hw, Hf in Hf'. injection Hf' as <-.
    rewrite Hl in Hl'. injection Hl' as <-.
    rewrite Hw, Hfl in Hfl'. injection Hfl' as <-.
    rewrite Hb in Hb'. injection Hb' as <-.
    assert (Ek : kl r' = kl r) by congruence.
    assert (En : tokens r' = tokens r) by congruence.
    assert (Ef : fisher r' = fisher r).
    { rewrite Hfi, Hfi', !after_backward_parameters,
        !fisher_items_with_grad.
      change (map (fun p => (p_name p, p_data p)) (named_parameters ?x))
        with (weights x).
      rewrite Hw. reflexivity. }
    apply result_ext; try assumption.
    rewrite Ek, Ef, En, Hnov in Hnov'. injection Hnov' as <-. reflexivity.
Qed.

(** X7 at the small backend: the first call (from training mode) leaves
    the model in evaluation mode; the second and the third agree. *)
Lemma compute_repeatable_witness :
  exists r0 r s1 s2,
    compute toy_backend default_config "a" toy_model = (Ok r0, s1) /\
    compute toy_backend default_config "a" s1 = (Ok r, s2) /\
    compute toy_backend default_config "a" s2 = (Ok r, s2).
Proof.
  destruct toy_compute_state as [r0 H0].
  set (s1 := zero_grad (after_backward toy_grad toy_model)) in *.
  destruct (compute_returns toy_backend default_config "a" s1
              [97%nat] [[0; ln 2]] tt toy_grad) as [r Hr];
    try reflexivity; try discriminate; try (simpl; lra).
  exists r0, r, s1. eexists.
  split; [exact H0 | ]. split; [exact Hr | ].
  apply (compute_repeatable toy_backend default_config "a" s1 _ r).
  - reflexivity.
  - exact Hr.
Defined.

(** ** Further properties of the processing loop *)

Lemma process_texts_metrics {graph : Type} (B : backend graph) config texts :
  forall st st',
    process_texts B config texts st = (Ok tt, st') ->
    exists rows,
      data_log st' = data_log st ++ rows /\
      List.length rows = List.length texts /\
      m_novelty (metrics st') =
        m_novelty (metrics st) ++ map (fun e => novelty (res e)) rows /\
      m_kl (metrics st') =
        m_kl (metrics st) ++ map (fun e => kl (res e)) rows /\
      m_fisher (metrics st') =
        m_fisher (metrics st) ++ map (fun e => fisher (res e)) rows.
Proof.
  induction texts as [ | t texts IH]; intros st st' H.
  - simpl in H. unfold ret in H. inversion H; subst.
    exists []. simpl. rewrite !app_nil_r. repeat split.
  - simpl in H. apply bind_Ok in H. destruct H as ([] & st1 & H1 & H2).
    apply process_text_Ok in H1. destruct H1 as (r & m' & _ & ->).
    apply IH in H2.
    destruct H2 as (rows & Hlog & Hlen & Hn & Hk & Hf).
    exists ({| text := t; is_alert := is_outlier config r; res := r |}
            :: rows).
    simpl in Hlog, Hn, Hk, Hf. simpl.
    rewrite Hlog, Hn, Hk, Hf, Hlen, <- !app_assoc. repeat split.
Qed.

(** X8. When [run_simulation_2d] gets through its loop, the rows it hands
    to the writer are as many as the texts, and the three plotted series
    are the ["novelty"], ["kl"] and ["fisher"] columns of those rows, in
    the same order. *)
Theorem run_simulation_2d_metrics {graph : Type} (B : backend graph)
    (loaded : model_state) (texts : list string) (rows : list log_entry)
    (st : sim_state) :
  run_simulation_2d B loaded texts = (Ok rows, st) ->
  data_log st = rows /\
  List.length rows = List.length texts /\
  m_novelty (metrics st) = map (fun e => novelty (res e)) rows /\
  m_kl (metrics st) = map (fun e => kl (res e)) rows /\
  m_fisher (metrics st) = map (fun e => fisher (res e)) rows.
Proof.
  unfold run_simulation_2d.
  destruct (process_texts B default_config texts _) as [[[] | e] st1] eqn:Hp;
    intros H; [ | discriminate H ].
  inversion H; subst. apply process_texts_metrics in Hp.
  destruct Hp as (rows & Hlog & Hlen & Hn & Hk & Hf).
  simpl in Hlog, Hn, Hk, Hf. rewrite Hlog, Hn, Hk, Hf.
  repeat split. exact Hlen.
Qed.

(** X8 on a run of the small backend over one text. *)
Lemma run_simulation_2d_metrics_witness :
  exists rows st,
    run_simulation_2d toy_backend toy_model ["a"%string] = (Ok rows, st) /\
    List.length rows = 1%nat /\
    m_novelty (metrics st) = map (fun e => novelty (res e)) rows.
Proof.
  destruct toy_run_returns as (rows & st & H).
  exists rows, st. split; [exact H | ].
  destruct (run_simulation_2d_metrics toy_backend toy_model ["a"%string]
              rows st H) as (_ & Hlen & Hn & _).
  split; [exact Hlen | exact Hn].
Defined.

Lemma process_texts_raise_at {graph : Type} (B : backend graph) config
    (pre post : list string) (t : string) (st st1 : sim_state)
    (e : exn) (m' : model_state) :
  process_texts B config pre st = (Ok tt, st1) ->
  compute B config t (model st1) = (Raise e, m') ->
  process_texts B config (pre ++ t :: post) st =
    (Raise e, {| model := m'; data_log := data_log st1;
                 metrics := metrics st1 |}).
Proof.
  intros Hpre Hc.
  rewrite process_texts_app, (bind_step _ _ _ _ _ Hpre).
  simpl. unfold bind, process_text, bind, on_model. rewrite Hc.
  reflexivity.
Qed.

(** X9. The loop stops at the first text whose evaluation raises: if the
    run over [pre] gets through and the evaluation of [t] then raises
    [e], the run over [pre], [t] and any further texts raises [e]; it
    returns no rows to the writer, evaluates none of the further texts,
    and holds the rows and series of [pre] when it stops. *)
Theorem run_simulation_2d_first_failure {graph : Type} (B : backend graph)
    (loaded : model_state) (pre post : list string) (t : string)
    (rows : list log_entry) (st1 : sim_state) (e : exn)
    (m' : model_state) :
  run_simulation_2d B loaded pre = (Ok rows, st1) ->
  compute B default_config t (model st1) = (Raise e, m') ->
  run_simulation_2d B loaded (pre ++ t :: post) =
    (Raise e, {| model := m'; data_log := rows; metrics := metrics st1 |}).
Proof.
  unfold run_simulation_2d.
  destruct (process_texts B default_config pre _) as [[[] | e0] st0] eqn:Hp;
    intros H Hc; [ | discriminate H ].
  inversion H; subst.
  rewrite (process_texts_raise_at B default_config pre post t _ st1 e m'
             Hp Hc).
  reflexivity.
Qed.

(** X9 at the small backend: the second of three texts is empty. *)
Lemma run_simulation_2d_first_failure_witness :
  exists rows st1,
    run_simulation_2d toy_backend toy_model ["a"%string] = (Ok rows, st1) /\
    List.length rows = 1%nat /\
    run_simulation_2d toy_backend toy_model
      (["a"%string] ++ ""%string :: ["b"%string]) =
      (Raise IndexError,
       {| model := model st1; data_log := rows; metrics := metrics st1 |}).
Proof.
  destruct toy_compute_state as [r Hr].
  set (s1 := zero_grad (after_backward toy_grad toy_model)) in *.
  set (st1 := log_result "a" (is_outlier default_config r) r
                {| model := s1; data_log := data_log toy_start;
                   metrics := metrics toy_start |}).
  assert (Hrun : run_simulation_2d toy_backend toy_model ["a"%string]
                 = (Ok (data_log st1), st1)).
  { unfold run_simulation_2d, process_texts, process_text, bind, on_model,
      modify, ret.
    cbn [model]. rewrite Hr. reflexivity. }
  exists (data_log st1), st1.
  split; [exact Hrun | ]. split; [reflexivity | ].
  apply (run_simulation_2d_first_failure toy_backend toy_model
           ["a"%string] ["b"%string] "" (data_log st1) st1 IndexError
           (model st1) Hrun).
  reflexivity.
Defined.

(** ** The hardware rig: [cpu_workload] *)

Local Open Scope Z_scope.

Lemma land_mask32 (x : Z) : Z.land x 0xFFFFFFFF = x mod 2 ^ 32.
Proof. change 0xFFFFFFFF with (Z.ones 32). apply Z.land_ones. lia. Qed.

Lemma testbit_above (a n i : Z) :
  0 <= a < 2 ^ n -> 0 <= n <= i -> Z.testbit a i = false.
Proof.
  intros Ha Hi. rewrite <- (Z.mod_small a (2 ^ n) Ha).
  apply Z.mod_pow2_bits_high. exact Hi.
Qed.

Lemma lxor_range (a b n : Z) :
  0 <= n -> 0 <= a < 2 ^ n -> 0 <= b < 2 ^ n ->
  0 <= Z.lxor a b < 2 ^ n.
Proof.
  intros Hn Ha Hb.
  assert (E : Z.lxor a b = Z.lxor a b mod 2 ^ n).
  { apply Z.bits_inj'. intros i Hi.
    rewrite Z.testbit_mod_pow2 by exact Hn.
    destruct (Z.ltb_spec i n) as [Hlt | Hge]; [reflexivity | ].
    rewrite Z.lxor_spec, (testbit_above a n i), (testbit_above b n i);
      [reflexivity | | | | ]; lia. }
  rewrite E. apply Z.mod_pos_bound. lia.
Qed.

Lemma mix_step_range (byte result : Z) :
  0 <= mix_step byte result < 2 ^ 32.
Proof.
  unfold mix_step. rewrite !land_mask32.
  apply lxor_range; [lia | | ]; apply Z.mod_pos_bound; lia.
Qed.

Lemma xorshift13_bit (y i : Z) :
  0 <= i < 32 ->
  Z.testbit (xorshift13 y) i = xorb (Z.testbit y i) (Z.testbit y (i - 13)).
Proof.
  intros Hi. unfold xorshift13.
  rewrite Z.lxor_spec, Z.testbit_mod_pow2 by lia.
  destruct (Z.ltb_spec i 32) as [_ | Hge]; [ | lia ].
  rewrite Z.shiftl_spec by lia. reflexivity.
Qed.

Lemma xorshift13_injective (y1 y2 : Z) :
  0 <= y1 < 2 ^ 32 -> 0 <= y2 < 2 ^ 32 ->
  xorshift13 y1 = xorshift13 y2 -> y1 = y2.
Proof.
  intros H1 H2 E. apply Z.bits_inj'.
  apply (Z_lt_induction
           (fun i => Z.testbit y1 i = Z.testbit y2 i)).
  intros i IH.
  destruct (Z.lt_ge_cases i 0) as [Hneg | Hpos].
  { rewrite !Z.testbit_neg_r by exact Hneg. reflexivity. }
  destruct (Z.lt_ge_cases i 32) as [Hlt | Hge].
  - assert (Eb : Z.testbit (xorshift13 y1) i = Z.testbit (xorshift13 y2) i)
      by (rewrite E; reflexivity).
    rewrite !xorshift13_bit in Eb by lia.
    assert (Elow : Z.testbit y1 (i - 13) = Z.testbit y2 (i - 13)).
    { destruct (Z.lt_ge_cases (i - 13) 0) as [Hn | Hp].
      - rewrite !Z.testbit_neg_r by exact Hn. reflexivity.
      - apply IH. lia. }
    rewrite Elow in Eb.
    destruct (Z.testbit y1 i), (Z.testbit y2 i), (Z.testbit y2 (i - 13));
      simpl in Eb; congruence.
  - rewrite (testbit_above y1 32 i), (testbit_above y2 32 i);
      [reflexivity | | | | ]; lia.
Qed.

Lemma affine31_injective (byte r1 r2 : Z) :
  0 <= r1 < 2 ^ 32 -> 0 <= r2 < 2 ^ 32 ->
  (r1 * 31 + byte) mod 2 ^ 32 = (r2 * 31 + byte) mod 2 ^ 32 ->
  r1 = r2.
Proof.
  intros H1 H2 E.
  assert (Hdiv : (2 ^ 32 | 31 * (r1 - r2))).
  { exists ((r1 * 31 + byte) / 2 ^ 32 - (r2 * 31 + byte) / 2 ^ 32).
    pose proof (Z.div_mod (r1 * 31 + byte) (2 ^ 32)) as D1.
    pose proof (Z.div_mod (r2 * 31 + byte) (2 ^ 32)) as D2.
    lia. }
  apply Z.gauss in Hdiv; [ | reflexivity ].
  destruct Hdiv as [k Hk]. lia.
Qed.

Lemma mix_step_injective (byte r1 r2 : Z) :
  0 <= r1 < 2 ^ 32 -> 0 <= r2 < 2 ^ 32 ->
  mix_step byte r1 = mix_step byte r2 -> r1 = r2.
Proof.
  intros H1 H2 E. unfold mix_step in E. rewrite !land_mask32 in E.
  apply (affine31_injective byte); try assumption.
  apply xorshift13_injective; try (apply Z.mod_pos_bound; lia).
  exact E.
Qed.

Lemma iter_mix_range (n : nat) (byte result : Z) :
  0 <= result < 2 ^ 32 ->
  0 <= Nat.iter n (mix_step byte) result < 2 ^ 32.
Proof.
  intros H. destruct n as [ | n]; [exact H | ].
  cbn [Nat.iter nat_rect]. apply mix_step_range.
Qed.

Lemma iter_mix_injective (n : nat) (byte r1 r2 : Z) :
  0 <= r1 < 2 ^ 32 -> 0 <= r2 < 2 ^ 32 ->
  Nat.iter n (mix_step byte) r1 = Nat.iter n (mix_step byte) r2 ->
  r1 = r2.
Proof.
  intros H1 H2. induction n as [ | n IH]; intros E.
  - exact E.
  - cbn [Nat.iter nat_rect] in E. apply IH.
    apply (mix_step_injective byte); try assumption;
      apply iter_mix_range; assumption.
Qed.

Lemma mix_byte_range (result : Z) (b : Byte.byte) :
  0 <= result < 2 ^ 32 -> 0 <= mix_byte result b < 2 ^ 32.
Proof. intros H. unfold mix_byte. apply iter_mix_range. exact H. Qed.

Lemma fold_left_invariant {A C : Type} (P : A -> Prop) (f : A -> C -> A) :
  (forall a c, P a -> P (f a c)) ->
  forall (l : list C) (a : A), P a -> P (fold_left f l a).
Proof.
  intros Hf l. induction l as [ | c l IH]; intros a Ha.
  - exact Ha.
  - simpl. apply IH. apply Hf. exact Ha.
Qed.

Lemma fold_left_injective {A C : Type} (P : A -> Prop) (f : A -> C -> A) :
  (forall a c, P a -> P (f a c)) ->
  (forall a1 a2 c, P a1 -> P a2 -> f a1 c = f a2 c -> a1 = a2) ->
  forall (l : list C) (a1 a2 : A),
    P a1 -> P a2 -> fold_left f l a1 = fold_left f l a2 -> a1 = a2.
Proof.
  intros Hf Hinj l. induction l as [ | c l IH]; intros a1 a2 H1 H2 E.
  - exact E.
  - simpl in E. apply IH in E; try (apply Hf; assumption).
    apply (Hinj a1 a2 c H1 H2 E).
Qed.

Lemma mix_byte_injective (r1 r2 : Z) (b : Byte.byte) :
  0 <= r1 < 2 ^ 32 -> 0 <= r2 < 2 ^ 32 ->
  mix_byte r1 b = mix_byte r2 b -> r1 = r2.
Proof.
  intros H1 H2. unfold mix_byte.
  apply (iter_mix_injective 250 _ r1 r2 H1 H2).
Qed.

Lemma fold_mix_range (data : list Byte.byte) (result : Z) :
  0 <= result < 2 ^ 32 ->
  0 <= fold_left mix_byte data result < 2 ^ 32.
Proof.
  apply (fold_left_invariant (fun r => 0 <= r < 2 ^ 32) mix_byte).
  intros a c. apply mix_byte_range.
Qed.

Lemma fold_mix_injective (data : list Byte.byte) (r1 r2 : Z) :
  0 <= r1 < 2 ^ 32 -> 0 <= r2 < 2 ^ 32 ->
  fold_left mix_byte data r1 = fold_left mix_byte data r2 ->
  r1 = r2.
Proof.
  apply (fold_left_injective (fun r => 0 <= r < 2 ^ 32) mix_byte).
  - intros a c. apply mix_byte_range.
  - intros a1 a2 c. apply mix_byte_injective.
Qed.

(** X10. [cpu_workload] returns an unsigned 32-bit value for every input,
    and 0 for the empty input. *)
Theorem cpu_workload_range :
  cpu_workload [] = 0 /\
  forall data : list Byte.byte, 0 <= cpu_workload data < 2 ^ 32.
Proof.
  split; [reflexivity | ].
  intros data. unfold cpu_workload. apply fold_mix_range. lia.
Qed.

(** X11. [cpu_workload] loses nothing of its running value: for the same
    further bytes [d], two inputs give the same result exactly when the
    inputs before [d] already did; the bytes that follow never merge two
    different running values. *)
Theorem cpu_workload_suffix (a1 a2 d : list Byte.byte) :
  cpu_workload (a1 ++ d) = cpu_workload (a2 ++ d) <->
  cpu_workload a1 = cpu_workload a2.
Proof.
  unfold cpu_workload. rewrite !fold_left_app. split.
  - apply fold_mix_injective; apply fold_mix_range; lia.
  - intros ->. reflexivity.
Qed.

Local Close Scope Z_scope.

(** ** The hardware rig: the figures of a round and the heat buffer *)

Lemma payload_bits (data : list Byte.byte) :
  In data payloads ->
  (List.length data * 8 = 96 \/ List.length data * 8 = 104)%nat.
Proof.
  unfold payloads. simpl.
  intros [<- | [<- | [<- | []]]]; simpl; auto.
Qed.

(** X12. One round of [run_instance], for a payload of the list, a load
    between 0 and 100 percent and a non-negative duration: it appends one
    power figure between 0 and [CPU_TDP_WATTS] and one energy figure,
    [cpu_w * dur / bits * 1e9], which is non-negative (the payload is
    never empty, so the zero-bits branch of line 264 is not taken), and
    adds 96 or 104 to [total_bits]. *)
Theorem record_round_figures (data : list Byte.byte) (load dur : R)
    (stats : rig_stats) :
  In data payloads ->
  0 <= load <= 100 ->
  0 <= dur ->
  exists (cpu_w nj_per_bit : R) (bits : nat),
    record_round data load dur stats =
      {| cpu_watts := cpu_watts stats ++ [cpu_w];
         nj_bits := nj_bits stats ++ [nj_per_bit];
         total_bits := (total_bits stats + bits)%nat |} /\
    bits = (List.length data * 8)%nat /\
    (bits = 96 \/ bits = 104)%nat /\
    0 <= cpu_w <= CPU_TDP_WATTS /\
    nj_per_bit = cpu_w * dur / INR bits * 1000000000 /\
    0 <= nj_per_bit.
Proof.
  intros Hin Hload Hdur.
  pose proof (payload_bits data Hin) as Hbits.
  set (bits := (List.length data * 8)%nat) in *.
  set (cpu_w := load / 100 * CPU_TDP_WATTS).
  exists cpu_w, (cpu_w * dur / INR bits * 1000000000), bits.
  assert (Hpos : (0 <? bits)%nat = true).
  { apply Nat.ltb_lt. destruct Hbits as [-> | ->]; lia. }
  assert (Hw : 0 <= cpu_w <= CPU_TDP_WATTS).
  { unfold cpu_w, CPU_TDP_WATTS. lra. }
  assert (Hb : 0 < INR bits).
  { apply lt_0_INR. destruct Hbits as [-> | ->]; lia. }
  split.
  { unfold record_round. fold bits. fold cpu_w. rewrite Hpos. reflexivity. }
  split; [reflexivity | ]. split; [exact Hbits | ].
  split; [exact Hw | ]. split; [reflexivity | ].
  apply Rmult_le_pos; [ | lra ].
  apply Rmult_le_pos; [ | apply Rlt_le, Rinv_0_lt_compat; exact Hb ].
  apply Rmult_le_pos; lra.
Qed.

(** X12 on one round: the first payload (13 bytes), half load, 2 ms. *)
Lemma record_round_figures_witness :
  exists (cpu_w nj_per_bit : R) (bits : nat),
    record_round (list_byte_of_string "GPT_LAYER_ACT") 50 (2 / 1000)
      {| cpu_watts := []; nj_bits := []; total_bits := 0 |} =
      {| cpu_watts := [cpu_w]; nj_bits := [nj_per_bit];
         total_bits := bits |} /\
    bits = 104%nat /\ 0 <= cpu_w <= 25 /\ 0 <= nj_per_bit.
Proof.
  destruct (record_round_figures (list_byte_of_string "GPT_LAYER_ACT")
              50 (2 / 1000)
              {| cpu_watts := []; nj_bits := []; total_bits := 0 |})
    as (cpu_w & nj & bits & Heq & Hbits & _ & Hw & _ & Hnj).
  - left. reflexivity.
  - lra.
  - lra.
  - exists cpu_w, nj, bits. simpl in Heq.
    split; [exact Heq | ]. split; [exact Hbits | ].
    split; [exact Hw | exact Hnj].
Defined.

Lemma record_round_growth (data : list Byte.byte) (load dur : R)
    (stats : rig_stats) :
  List.length (cpu_watts (record_round data load dur stats)) =
    S (List.length (cpu_watts stats)) /\
  List.length (nj_bits (record_round data load dur stats)) =
    S (List.length (nj_bits stats)) /\
  total_bits (record_round data load dur stats) =
    (total_bits stats + List.length data * 8)%nat.
Proof.
  unfold record_round. cbn [cpu_watts nj_bits total_bits].
  rewrite !length_app. cbn [List.length]. repeat split; lia.
Qed.

(** X13. Any number of rounds, each with a payload of the list: the two
    lists of figures grow by one entry per round, so they stay of equal
    growth, and [total_bits] grows by between 96 and 104 per round. *)
Theorem record_rounds_growth (rounds : list (list Byte.byte * R * R))
    (stats : rig_stats) :
  Forall (fun r => In (fst (fst r)) payloads) rounds ->
  let stats' := record_rounds rounds stats in
  List.length (cpu_watts stats') =
    (List.length (cpu_watts stats) + List.length rounds)%nat /\
  List.length (nj_bits stats') =
    (List.length (nj_bits stats) + List.length rounds)%nat /\
  (total_bits stats + 96 * List.length rounds <= total_bits stats'
   <= total_bits stats + 104 * List.length rounds)%nat.
Proof.
  intros Hall. revert stats.
  induction Hall as [ | r rounds Hr Hall IH]; intros stats stats'.
  - subst stats'. unfold record_rounds. simpl. repeat split; lia.
  - specialize (IH (record_round (fst (fst r)) (snd (fst r)) (snd r) stats)).
    cbv zeta in IH.
    change (record_rounds rounds
              (record_round (fst (fst r)) (snd (fst r)) (snd r) stats))
      with stats' in IH.
    destruct IH as (Hc & Hn & Hb).
    destruct (record_round_growth (fst (fst r)) (snd (fst r)) (snd r) stats)
      as (Ec & En & Eb).
    rewrite Ec in Hc. rewrite En in Hn. rewrite Eb in Hb.
    pose proof (payload_bits (fst (fst r)) Hr) as Hbits.
    cbn [List.length]. repeat split; lia.
Qed.

(** X13 on a call of [ROUNDS_PER_INST] rounds that all draw the third
    payload (12 bytes). *)
Lemma record_rounds_growth_witness :
  let rounds := repeat (list_byte_of_string "SOTA_P_PROBE", 50, 2 / 1000)
                  ROUNDS_PER_INST in
  let stats' := record_rounds rounds
                  {| cpu_watts := []; nj_bits := []; total_bits := 0 |} in
  List.length (cpu_watts stats') = 25%nat /\
  List.length (nj_bits stats') = 25%nat /\
  (2400 <= total_bits stats' <= 2600)%nat.
Proof.
  intros rounds stats'.
  assert (Hall : Forall (fun r => In (fst (fst r)) payloads) rounds).
  { apply Forall_forall. intros r Hr. apply repeat_spec in Hr. subst r.
    right. right. left. reflexivity. }
  pose proof (record_rounds_growth rounds
                {| cpu_watts := []; nj_bits := []; total_bits := 0 |} Hall)
    as (Hc & Hn & Hb).
  fold stats' in Hc, Hn, Hb.
  assert (Hlen : List.length rounds = 25%nat) by apply repeat_length.
  rewrite Hlen in Hc, Hn, Hb. clearbody stats'.
  simpl in Hc, Hn, Hb.
  repeat split; lia.
Defined.

Lemma update_heat_cons (v x : R) (t : list R) :
  update_heat v (x :: t) = Ok (t ++ [v]).
Proof.
  unfold update_heat, np_roll_left, set_last.
  destruct (t ++ [x]) as [ | y l] eqn:E.
  - destruct t; discriminate E.
  - rewrite <- E, removelast_last. reflexivity.
Qed.

Lemma update_heats_window (vals buf : list R) :
  buf <> [] ->
  update_heats vals buf = Ok (skipn (List.length vals) (buf ++ vals)).
Proof.
  revert buf. induction vals as [ | v vals IH]; intros buf Hbuf.
  - simpl. rewrite app_nil_r. reflexivity.
  - destruct buf as [ | x t]; [contradiction | ].
    cbn [update_heats]. rewrite update_heat_cons.
    rewrite IH by (destruct t; discriminate).
    rewrite <- app_assoc. reflexivity.
Qed.

(** X14. The heat buffer is a sliding window: after the updates for
    [vals], a non-empty buffer holds the last entries of the old buffer
    followed by [vals], cut to its own length; the buffer of the rig keeps
    its 100 entries and, once 100 values have come in, holds exactly the
    latest 100, oldest first.  On an empty buffer the update raises
    [IndexError]. *)
Theorem update_heats_sliding_window :
  (forall vals buf,
      buf <> [] ->
      update_heats vals buf =
        Ok (skipn (List.length vals) (buf ++ vals))) /\
  (forall vals,
      exists buf',
        update_heats vals heat_buffer_init = Ok buf' /\
        List.length buf' = 100%nat /\
        ((100 <= List.length vals)%nat ->
         buf' = skipn (List.length vals - 100) vals)) /\
  (forall v, update_heat v [] = Raise IndexError).
Proof.
  split; [exact update_heats_window | split; [ | reflexivity ] ].
  intros vals.
  exists (skipn (List.length vals) (heat_buffer_init ++ vals)).
  assert (Hlen : List.length heat_buffer_init = 100%nat)
    by apply repeat_length.
  split; [ | split ].
  - apply update_heats_window. unfold heat_buffer_init. discriminate.
  - rewrite length_skipn, length_app, Hlen. lia.
  - intros Hge. rewrite skipn_app, Hlen.
    rewrite skipn_all2 by (rewrite Hlen; lia). reflexivity.
Qed.

(** X14 on a buffer of two entries and three updates. *)
Lemma update_heats_sliding_window_witness :
  update_heats [1; 2; 3] [7; 8] = Ok [2; 3].
Proof.
  destruct update_heats_sliding_window as (Hwin & _ & _).
  rewrite (Hwin [1; 2; 3] [7; 8]) by discriminate.
  reflexivity.
Defined.

(** ** The length penalty on a returned result *)




(** X11 on two inputs that differ in their first byte and share the rest:
    the results differ. *)
Lemma cpu_workload_suffix_witness :
  cpu_workload (list_byte_of_string "a" ++ list_byte_of_string "GPT") <>
  cpu_workload (list_byte_of_string "b" ++ list_byte_of_string "GPT").
Proof.
  intros E.
  apply (cpu_workload_suffix (list_byte_of_string "a")
           (list_byte_of_string "b") (list_byte_of_string "GPT")) in E.
  vm_compute in E. discriminate E.
Defined.
